(** * Credential verification of the dynamic-security plugin

    A shallow embedding of [plugins/dynamic-security/auth.c]: the base64
    codec built on the OpenSSL BIO filter, the PBKDF2 password hasher, the
    constant-time comparator and the basic-auth callback, together with the
    properties the specification states about them. *)

From Stdlib Require Import ZArith Lia.
From Stdlib.Strings Require Import Byte.
From stdpp Require Import base option list strings gmap.

Local Open Scope Z_scope.

(** ** C integers *)

Module CInt.

Definition INT_MAX : Z := 2147483647.
Definition INT_MIN : Z := -2147483648.

(** Conversion of an out-of-range value to [int] (two's complement). *)
Definition to_int (z : Z) : Z := (z + 2 ^ 31) mod 2 ^ 32 - 2 ^ 31.

Definition in_int (z : Z) : Prop := INT_MIN <= z <= INT_MAX.

End CInt.

(** ** Return codes *)

(** Modelled from the spec: the codes of [enum mosq_err_t], declared in
    [mosquitto.h] and not in [auth.c]; the specification names the four
    outcomes they stand for. MOSQ_ERR_SUCCESS has to be 0, the value the
    hasher returns through C's [!] when the key derivation succeeds. *)
Definition MOSQ_ERR_SUCCESS : Z := 0.
Definition MOSQ_ERR_INVAL : Z := 3.
Definition MOSQ_ERR_AUTH : Z := 11.
Definition MOSQ_ERR_UNKNOWN : Z := 13.
Definition MOSQ_ERR_PLUGIN_DEFER : Z := 17.

(** The four outcomes of the specification, as the host reads them from
    the callback's return code. *)
Inductive outcome := ACCEPT | REJECT | DEFER | ERROR.

Definition outcome_of_rc (rc : Z) : outcome :=
  if decide (rc = MOSQ_ERR_SUCCESS) then ACCEPT
  else if decide (rc = MOSQ_ERR_AUTH) then REJECT
  else if decide (rc = MOSQ_ERR_PLUGIN_DEFER) then DEFER
  else ERROR.

(** ** Bytes and C strings *)

#[global] Instance byte_eq_dec : EqDecision byte := Byte.byte_eq_dec.

Definition NUL : byte := x00.

Definition byte_val (b : byte) : Z := Z.of_N (Byte.to_N b).

Definition byte_of_val (z : Z) : byte :=
  default NUL (Byte.of_N (Z.to_N z)).

(** Every byte value 0-255, in order. *)
Definition all_byte_values : list byte := map byte_of_val (seqZ 0 256).

(** [strlen]: the number of bytes before the first NUL of the block. *)
Fixpoint strlen (s : list byte) : nat :=
  match s with
  | [] => O
  | c :: s' => if decide (c = NUL) then O else S (strlen s')
  end.

(** ** The base64 transform *)

Module Base64.

Definition alphabet : list byte :=
  String.list_byte_of_string
    "ABCDEFGHIJKLMNOPQRSTUVWXYZabcdefghijklmnopqrstuvwxyz0123456789+/".

Definition pad : byte := "="%byte.

Definition conv_bin2ascii (v : Z) : byte :=
  nth (Z.to_nat (v mod 64)) alphabet pad.

Fixpoint index_of (c : byte) (l : list byte) (i : Z) : option Z :=
  match l with
  | [] => None
  | x :: l' => if decide (x = c) then Some i else index_of c l' (i + 1)
  end.

Definition conv_ascii2bin (c : byte) : option Z := index_of c alphabet 0.

(** Three input bytes make one 24-bit group, written as four sextets. *)
Definition group24 (b0 b1 b2 : byte) : Z :=
  byte_val b0 * 65536 + byte_val b1 * 256 + byte_val b2.

(** Modelled from the spec: the encoding direction of the OpenSSL base64
    BIO filter with BIO_FLAGS_BASE64_NO_NL, which is not part of this
    repository; "standard base64 alphabet, no line wrapping, standard
    padding". *)
Fixpoint encode (l : list byte) : list byte :=
  match l with
  | [] => []
  | [b0] =>
      let g := group24 b0 x00 x00 in
      [conv_bin2ascii (g / 262144); conv_bin2ascii (g / 4096); pad; pad]
  | [b0; b1] =>
      let g := group24 b0 b1 x00 in
      [conv_bin2ascii (g / 262144); conv_bin2ascii (g / 4096);
       conv_bin2ascii (g / 64); pad]
  | b0 :: b1 :: b2 :: l' =>
      let g := group24 b0 b1 b2 in
      conv_bin2ascii (g / 262144) :: conv_bin2ascii (g / 4096) ::
      conv_bin2ascii (g / 64) :: conv_bin2ascii g :: encode l'
  end.

Definition ungroup24 (s0 s1 s2 s3 : Z) : Z :=
  s0 * 262144 + s1 * 4096 + s2 * 64 + s3.

Definition bytes_of_group (g : Z) (n : nat) : list byte :=
  take n [byte_of_val (g / 65536 mod 256); byte_of_val (g / 256 mod 256);
          byte_of_val (g mod 256)].

(** A quantum in the middle of the text: four alphabet characters. *)
Definition decode_quad (c0 c1 c2 c3 : byte) : option (list byte) :=
  s0 ← conv_ascii2bin c0; s1 ← conv_ascii2bin c1;
  s2 ← conv_ascii2bin c2; s3 ← conv_ascii2bin c3;
  Some (bytes_of_group (ungroup24 s0 s1 s2 s3) 3).

(** The last quantum may end in one or two padding characters. *)
Definition decode_last (c0 c1 c2 c3 : byte) : option (list byte) :=
  if decide (c3 = pad) then
    if decide (c2 = pad) then
      s0 ← conv_ascii2bin c0; s1 ← conv_ascii2bin c1;
      Some (bytes_of_group (ungroup24 s0 s1 0 0) 1)
    else
      s0 ← conv_ascii2bin c0; s1 ← conv_ascii2bin c1;
      s2 ← conv_ascii2bin c2;
      Some (bytes_of_group (ungroup24 s0 s1 s2 0) 2)
  else decode_quad c0 c1 c2 c3.

(** Modelled from the spec: the decoding direction of the same filter;
    text that is not a sequence of complete quanta over the alphabet
    ("wrong alphabet, truncated padding") does not decode. *)
Fixpoint decode (t : list byte) : option (list byte) :=
  match t with
  | [] => Some []
  | c0 :: c1 :: c2 :: c3 :: t' =>
      match t' with
      | [] => decode_last c0 c1 c2 c3
      | _ :: _ =>
          q ← decode_quad c0 c1 c2 c3; r ← decode t'; Some (q ++ r)
      end
  | _ => None
  end.

End Base64.

(** ** The broker's allocator *)

(** Modelled from the spec: [mosquitto_malloc], [mosquitto_calloc] and
    [mosquitto_free] are defined outside [auth.c]; they are taken as the C
    allocator. The heap maps the address of every live block to its
    contents; NULL is [None]. Whether a request is granted is decided by the
    caller of the model. *)
Abbreviation heap := (gmap positive (list byte)).

Definition mosquitto_calloc (granted : bool) (nmemb size : nat) (h : heap)
  : option positive * heap :=
  if granted then
    let p := fresh (dom h) in (Some p, <[p := replicate (nmemb * size) NUL]> h)
  else (None, h).

(** The contents of a fresh [malloc] block are indeterminate; the callers
    below write every byte of the block before it is read. *)
Definition mosquitto_malloc (granted : bool) (size : nat) (h : heap)
  : option positive * heap :=
  if granted then
    let p := fresh (dom h) in (Some p, <[p := replicate size NUL]> h)
  else (None, h).

Definition mosquitto_free (p : option positive) (h : heap) : heap :=
  match p with
  | Some a => delete a h
  | None => h
  end.

(** Writing [bytes] at the start of a block never grows the block. *)
Definition store_bytes (bytes block : list byte) : list byte :=
  take (length block) (bytes ++ drop (length bytes) block).

(** ** Base64 encoding/decoding *)

(** The BIO chain the codec builds: a base64 filter pushed on a memory BIO.
    [bio_b64_write data] is what the memory BIO holds once [data] has been
    written through the filter and flushed; [bio_b64_read text outl] is a
    [BIO_read] of at most [outl] bytes through the filter from a memory BIO
    holding [text]: the return value and the bytes delivered. *)
Class Base64BIO := {
  bio_b64_write : list byte -> list byte;
  bio_b64_read : list byte -> Z -> Z * list byte
}.

(** Modelled from the spec: the OpenSSL filter with BIO_FLAGS_BASE64_NO_NL,
    a library this repository links against. A read delivers the whole
    decoding when the text decodes to at least one byte, and reports a
    non-positive count when nothing can be delivered. *)
#[local] Instance StandardBase64 : Base64BIO := {|
  bio_b64_write := Base64.encode;
  bio_b64_read text outl :=
    if decide (outl <= 0) then (0, [])
    else match Base64.decode text with
         | Some (b :: bs) =>
             let out := take (Z.to_nat outl) (b :: bs) in
             (Z.of_nat (length out), out)
         | Some [] => (0, [])
         | None => (-1, [])
         end
|}.

(** What the environment grants during one call of the codec: the two
    [BIO_new] calls, the return value of [BIO_flush], and the allocation of
    the result buffer. *)
Record bio_env := {
  b64_new_ok : bool;
  bmem_new_ok : bool;
  flush_rc : Z;
  alloc_ok : bool
}.

Definition resources_ok : bio_env :=
  {| b64_new_ok := true; bmem_new_ok := true; flush_rc := 1; alloc_ok := true |}.

(** The caller's [char *encoded] and the heap. *)
Record encode_state := {
  enc_heap : heap;
  encoded : option positive
}.

(** The caller's [unsigned char *decoded], [int decoded_len] and the heap. *)
Record decode_state := {
  dec_heap : heap;
  decoded : option positive;
  decoded_len : Z
}.

Section Codec.
Context `{Base64BIO}.

Definition dynsec_auth__base64_encode (env : bio_env) (in_ : list byte)
    (in_len : Z) (st : encode_state) : Z * encode_state :=
  if decide (in_len < 0) then (1, st)
  else if negb (b64_new_ok env) then (1, st)
  else if negb (bmem_new_ok env) then (1, st)
  else
    let data := bio_b64_write (take (Z.to_nat in_len) in_) in
    if decide (flush_rc env <> 1) then (1, st)
    else
      match mosquitto_malloc (alloc_ok env) (length data + 1) (enc_heap st) with
      | (None, h) => (1, {| enc_heap := h; encoded := None |})
      | (Some a, h) =>
          (0, {| enc_heap := <[a := data ++ [NUL]]> h; encoded := Some a |})
      end.

Definition dynsec_auth__base64_decode (env : bio_env) (in_ : list byte)
    (st : decode_state) : Z * decode_state :=
  let slen := strlen in_ in
  if negb (b64_new_ok env) then (1, st)
  else if negb (bmem_new_ok env) then (1, st)
  else
    let n := CInt.to_int (Z.of_nat slen) in
    let mem := take (Z.to_nat n) in_ in
    if decide (flush_rc env <> 1) then (1, st)
    else
      match mosquitto_calloc (alloc_ok env) slen 1 (dec_heap st) with
      | (None, h) =>
          (1, {| dec_heap := h; decoded := None;
                 decoded_len := decoded_len st |})
      | (Some a, h) =>
          let '(r, bytes) := bio_b64_read mem n in
          let h' := alter (store_bytes bytes) a h in
          if decide (r <= 0) then
            (1, {| dec_heap := mosquitto_free (Some a) h'; decoded := None;
                   decoded_len := 0 |})
          else
            (0, {| dec_heap := h'; decoded := Some a; decoded_len := r |})
      end.

(** The count [BIO_read] reports for the text [in_]: the source passes
    [(int)strlen(in)] both as the number of bytes put in the memory BIO and
    as the capacity of the read. *)
Definition read_count (in_ : list byte) : Z :=
  let n := CInt.to_int (Z.of_nat (strlen in_)) in
  (bio_b64_read (take (Z.to_nat n) in_) n).1.

(** The text [*encoded] points to after a call of the encoder. *)
Definition encoded_text (st : encode_state) : option (list byte) :=
  a ← encoded st; enc_heap st !! a.

(** The first [decoded_len] bytes of the block [*decoded] points to. *)
Definition decoded_bytes (st : decode_state) : option (list byte) :=
  a ← decoded st; blk ← dec_heap st !! a;
  Some (take (Z.to_nat (decoded_len st)) blk).

(** Decoding the encoding of [b] succeeds and gives back [b] and its
    length. *)
Definition roundtrips (env1 env2 : bio_env) (h : heap) (b : list byte)
  : Prop :=
  let r := dynsec_auth__base64_encode env1 b (Z.of_nat (length b))
             {| enc_heap := h; encoded := None |} in
  r.1 = 0 /\
  exists text, encoded_text r.2 = Some text /\
    let d := dynsec_auth__base64_decode env2 text
               {| dec_heap := enc_heap r.2; decoded := None;
                  decoded_len := 0 |} in
    d.1 = 0 /\ decoded_len d.2 = Z.of_nat (length b) /\
    decoded_bytes d.2 = Some b.

End Codec.

(** ** Username/password check: the constant-time comparator *)

(** A fault ends a call without a return code. *)
Inductive fault := out_of_bounds_read | unprotected_lua_error.

Inductive completion := Return (rc : Z) | Fault (f : fault).

(** What C leaves to the platform: whether plain [char] is signed, and the
    contents of an automatic array of [n] bytes before it is written. *)
Class Platform := {
  char_signed : bool;
  indeterminate : nat -> list byte
}.

Section Comparator.
Context `{Platform}.

(** The value an element of the buffer, read as [char], has after promotion
    to [int]. *)
Definition char_of_byte (b : byte) : Z :=
  let v := byte_val b in
  if char_signed && bool_decide (128 <= v) then v - 256 else v.

(** The loop [for(i=0; i<len; i++) rc |= a[i] ^ b[i]], with [k] iterations
    left. Reading past the end of a buffer is a fault ([None]). *)
Fixpoint memcmp_const_loop (a b : list byte) (i k : nat) (rc : Z) : option Z :=
  match k with
  | O => Some rc
  | S k' =>
      x ← a !! i; y ← b !! i;
      memcmp_const_loop a b (S i) k'
        (Z.lor rc (Z.lxor (char_of_byte x) (char_of_byte y)))
  end.

Definition memcmp_const (a b : option (list byte)) (len : nat) : option Z :=
  match a, b with
  | Some a, Some b => memcmp_const_loop a b 0 len 0
  | _, _ => Some 1
  end.

End Comparator.

(** ** Password functions *)

(** Modelled from the spec: [struct mosquitto_pw] and [struct
    dynsec__client] are declared in [dynamic_security.h], not in [auth.c];
    these are the fields [auth.c] reads or writes, as the credential record
    of the specification describes them. The arrays [password_hash] and
    [salt] are lists; [sizeof] of an array is the length of its list. A NULL
    [clientid] is [None], a false [valid] is absent password material. *)
Record mosquitto_pw := {
  password_hash : list byte;
  salt : list byte;
  iterations : Z;
  valid : bool
}.

Record dynsec__client := {
  pw : mosquitto_pw;
  clientid : option string;
  disabled : bool
}.

Definition set_salt (buf : list byte) (client : dynsec__client)
  : dynsec__client :=
  {| pw := {| password_hash := password_hash (pw client); salt := buf;
              iterations := iterations (pw client);
              valid := valid (pw client) |};
     clientid := clientid client; disabled := disabled client |}.

Definition set_iterations (n : Z) (client : dynsec__client)
  : dynsec__client :=
  {| pw := {| password_hash := password_hash (pw client);
              salt := salt (pw client); iterations := n;
              valid := valid (pw client) |};
     clientid := clientid client; disabled := disabled client |}.

(** The crypto library the plugin links against. [RAND_bytes g buf num]
    takes the state of the random source and the buffer as it is before the
    call, and gives the return value, the buffer as the call leaves it, and
    the next state. [PKCS5_PBKDF2_HMAC pass passlen salt saltlen iter digest
    keylen out] gives the return value and the output buffer as the call
    leaves it. *)
Class CryptoProvider := {
  rng : Type;
  RAND_bytes : rng -> list byte -> Z -> Z * list byte * rng;
  EVP_MD : Type;
  EVP_get_digestbyname : string -> option EVP_MD;
  PKCS5_PBKDF2_HMAC :
    string -> Z -> list byte -> Z -> Z -> EVP_MD -> Z -> list byte ->
    Z * list byte
}.

(** Build-time configuration: the default work factor of
    [dynamic_security.h] and whether the Lua hook is compiled in. *)
Class PluginConfig := {
  PW_DEFAULT_ITERATIONS : Z;
  WITH_LUA : bool
}.

(** C's logical negation of an [int]. *)
Definition lnot (x : Z) : Z := if decide (x = 0) then 1 else 0.

Section Hasher.
Context `{CryptoProvider} `{PluginConfig}.

(** The result of a call: return code, the record as the call leaves it,
    the caller's [password_hash] buffer, and the random source. *)
Definition pw_hash_result : Type :=
  (Z * dynsec__client * list byte * rng)%type.

(** Lines 136-148, with [iterations] already chosen. *)
Definition pw_hash_derive (client : dynsec__client) (password : string)
    (password_hash : list byte) (password_hash_len : Z) (iterations : Z)
    (g : rng) : pw_hash_result :=
  if decide (iterations < 1) then (MOSQ_ERR_INVAL, client, password_hash, g)
  else
    let client := set_iterations iterations client in
    match EVP_get_digestbyname "sha512" with
    | None => (MOSQ_ERR_UNKNOWN, client, password_hash, g)
    | Some digest =>
        let '(r, out) :=
          PKCS5_PBKDF2_HMAC password
            (CInt.to_int (Z.of_nat (String.length password)))
            (salt (pw client)) (Z.of_nat (length (salt (pw client))))
            iterations digest password_hash_len password_hash in
        (lnot r, client, out, g)
    end.

Definition dynsec_auth__pw_hash (client : dynsec__client) (password : string)
    (password_hash : list byte) (password_hash_len : Z) (new_password : bool)
    (g : rng) : pw_hash_result :=
  if new_password then
    let '(r, buf, g') :=
      RAND_bytes g (salt (pw client)) (Z.of_nat (length (salt (pw client)))) in
    let client := set_salt buf client in
    if decide (r <> 1) then (MOSQ_ERR_UNKNOWN, client, password_hash, g')
    else
      pw_hash_derive client password password_hash password_hash_len
        PW_DEFAULT_ITERATIONS g'
  else
    pw_hash_derive client password password_hash password_hash_len
      (iterations (pw client)) g.

End Hasher.

(** ** Username/password check: the basic-auth callback *)

(** Modelled from the spec: the connecting client as the broker functions
    [mosquitto_client_id] and [mosquitto_client_address], defined outside
    [auth.c], report it; NULL (an unknowable identifier) is [None]. *)
Record mosquitto := {
  mosq_id : option string;
  mosq_address : option string
}.

Definition mosquitto_client_id (client : mosquitto) : option string :=
  mosq_id client.

Definition mosquitto_client_address (client : mosquitto) : option string :=
  mosq_address client.

Record mosquitto_evt_basic_auth := {
  ed_client : mosquitto;
  username : option string;
  password : option string
}.

(** Values on the Lua stack. *)
Inductive lua_value :=
| LNil
| LBoolean (b : bool)
| LNumber (n : Z)
| LString (s : string)
| LOther.

Definition lua_pushstring (s : option string) : lua_value :=
  match s with
  | Some s => LString s
  | None => LNil
  end.

Definition lua_isboolean (v : lua_value) : bool :=
  match v with
  | LBoolean _ => true
  | _ => false
  end.

(** The Lua interpreter. [lua_pcall L arg] runs the chunk kept at stack
    index 1 with the global table [arg], no arguments and one result: the
    status, the value it leaves on top of the stack (the result, or the error
    message) and the interpreter state. [luaL_checkinteger v] is [None] when
    the library raises a Lua error instead of returning; the callback makes
    that call outside any protected call. *)
Class LuaRuntime := {
  lua_State : Type;
  lua_pcall : lua_State -> list (Z * lua_value) -> Z * lua_value * lua_State;
  lua_tostring : lua_value -> option string;
  luaL_checkinteger : lua_value -> option Z
}.

Inductive log_level := MOSQ_LOG_INFO | MOSQ_LOG_ERR | MOSQ_LOG_DEBUG.

Inductive log_message :=
| client_connected (cid addr : option string)
| lua_pcall_failed (msg : option string)
| lua_handler_returned (ret_val : Z)
| lua_invalid_return_type.

Section DecisionEngine.
Context `{Platform} `{CryptoProvider} `{PluginConfig} `{LuaRuntime}.

(** The state the callback runs in: the credential directory behind
    [dynsec_clients__find], the random source, and the broker's log. *)
Record plugin_state := {
  clients : gmap string dynsec__client;
  rand : rng;
  log : list (log_level * log_message)
}.

(** Modelled from the spec: [dynsec_clients__find] is defined outside
    [auth.c]; "find_credential(username) -> credential_record | not_found". *)
Definition dynsec_clients__find (st : plugin_state) (username : string)
  : option dynsec__client :=
  clients st !! username.

Definition mosquitto_log_printf (level : log_level) (msg : log_message)
    (st : plugin_state) : plugin_state :=
  {| clients := clients st; rand := rand st;
     log := log st ++ [(level, msg)] |}.

(** The write through the [client] pointer made by the hasher, and the
    random source it leaves. *)
Definition store_client (username : string) (client : dynsec__client)
    (g : rng) (st : plugin_state) : plugin_state :=
  {| clients := <[username := client]> (clients st); rand := g;
     log := log st |}.

(** The result of a callback: how it ended, the state, and the interpreter
    behind [userdata]. *)
Definition callback_result : Type :=
  (completion * plugin_state * option lua_State)%type.

(** The global table [arg] the callback builds for the hook. *)
Definition hook_arg (ed : mosquitto_evt_basic_auth) : list (Z * lua_value) :=
  [(0, LString "mosquitto"); (1, LString "CONNECTED");
   (2, lua_pushstring (mosquitto_client_id (ed_client ed)));
   (3, lua_pushstring (mosquitto_client_address (ed_client ed)))].

(** Lines 197-239: the block compiled under WITH_LUA, and the final
    [return MOSQ_ERR_SUCCESS]. *)
Definition notify_connected (ed : mosquitto_evt_basic_auth)
    (userdata : option lua_State) (st : plugin_state) : callback_result :=
  if WITH_LUA then
    match userdata with
    | Some L =>
        let cid := mosquitto_client_id (ed_client ed) in
        let addr := mosquitto_client_address (ed_client ed) in
        let st := mosquitto_log_printf MOSQ_LOG_INFO
                    (client_connected cid addr) st in
        let '(status, top, L') := lua_pcall L (hook_arg ed) in
        if decide (status <> 0) then
          (Return MOSQ_ERR_UNKNOWN,
           mosquitto_log_printf MOSQ_LOG_ERR
             (lua_pcall_failed (lua_tostring top)) st,
           Some L')
        else if lua_isboolean top then
          match luaL_checkinteger top with
          | Some ret_val =>
              (Return MOSQ_ERR_SUCCESS,
               mosquitto_log_printf MOSQ_LOG_DEBUG
                 (lua_handler_returned ret_val) st,
               Some L')
          | None => (Fault unprotected_lua_error, st, Some L')
          end
        else
          (Return MOSQ_ERR_SUCCESS,
           mosquitto_log_printf MOSQ_LOG_DEBUG lua_invalid_return_type st,
           Some L')
    | None => (Return MOSQ_ERR_SUCCESS, st, userdata)
    end
  else (Return MOSQ_ERR_SUCCESS, st, userdata).

(** [sizeof(password_hash)] of the callback's local buffer, "For SHA512". *)
Definition password_hash_size : nat := 64.

Definition dynsec_auth__basic_auth_callback (ed : mosquitto_evt_basic_auth)
    (userdata : option lua_State) (st : plugin_state) : callback_result :=
  match username ed, password ed with
  | Some uname, Some passwd =>
      match dynsec_clients__find st uname with
      | Some client =>
          if disabled client then (Return MOSQ_ERR_AUTH, st, userdata)
          else if
            match clientid client with
            | Some bound =>
                match mosquitto_client_id (ed_client ed) with
                | None => true
                | Some cid => bool_decide (bound <> cid)
                end
            | None => false
            end
          then (Return MOSQ_ERR_AUTH, st, userdata)
          else if valid (pw client) then
            let '(rc, client', password_hash', g) :=
              dynsec_auth__pw_hash client passwd
                (indeterminate password_hash_size)
                (Z.of_nat password_hash_size) false (rand st) in
            let st := store_client uname client' g st in
            if decide (rc = MOSQ_ERR_SUCCESS) then
              match memcmp_const
                      (Some (password_hash (pw client')))
                      (Some password_hash') password_hash_size with
              | Some rc =>
                  if decide (rc = 0) then notify_connected ed userdata st
                  else (Return MOSQ_ERR_AUTH, st, userdata)
              | None => (Fault out_of_bounds_read, st, userdata)
              end
            else (Return MOSQ_ERR_PLUGIN_DEFER, st, userdata)
          else (Return MOSQ_ERR_PLUGIN_DEFER, st, userdata)
      | None => (Return MOSQ_ERR_PLUGIN_DEFER, st, userdata)
      end
  | _, _ => (Return MOSQ_ERR_PLUGIN_DEFER, st, userdata)
  end.

(** *** Vocabulary of the specification *)

(** The attempt carries a username and a password, and the lookup finds
    [client]. *)
Definition finds (st : plugin_state) (ed : mosquitto_evt_basic_auth)
    (uname passwd : string) (client : dynsec__client) : Prop :=
  username ed = Some uname /\ password ed = Some passwd /\
  dynsec_clients__find st uname = Some client.

(** Identity binding is satisfied: the record has no [clientid], or the
    connecting client's identifier is known and equal to it. *)
Definition identity_bound (client : dynsec__client)
    (ed : mosquitto_evt_basic_auth) : Prop :=
  match clientid client with
  | Some bound => mosquitto_client_id (ed_client ed) = Some bound
  | None => True
  end.

(** The hasher as the callback calls it. *)
Definition verify_hash (client : dynsec__client) (passwd : string) (g : rng)
  : pw_hash_result :=
  dynsec_auth__pw_hash client passwd (indeterminate password_hash_size)
    (Z.of_nat password_hash_size) false g.

(** The derivation step succeeds and leaves [h] in the callback's buffer. *)
Definition recomputed_hash (client : dynsec__client) (passwd : string)
    (g : rng) : option (list byte) :=
  let '(rc, _, h, _) := verify_hash client passwd g in
  if decide (rc = MOSQ_ERR_SUCCESS) then Some h else None.

(** The supplied password is correct: the record holds password material of
    the expected size, and the recomputed hash is the stored one. *)
Definition password_correct (client : dynsec__client) (passwd : string)
    (g : rng) : Prop :=
  valid (pw client) = true /\
  length (password_hash (pw client)) = password_hash_size /\
  recomputed_hash client passwd g = Some (password_hash (pw client)).

(** The notification hook, where it is compiled in and installed, runs to
    completion: [lua_pcall] reports status 0 and the conversion made for the
    debug line returns. *)
Definition hook_completes (ed : mosquitto_evt_basic_auth)
    (userdata : option lua_State) : bool :=
  if WITH_LUA then
    match userdata with
    | Some L =>
        let '(status, top, _) := lua_pcall L (hook_arg ed) in
        bool_decide (status = 0) &&
        (negb (lua_isboolean top) ||
         bool_decide (is_Some (luaL_checkinteger top)))
    | None => true
    end
  else true.

(** How a callback ended. *)
Definition ended (r : callback_result) : completion := r.1.1.

(** The outcome the host reads, when the callback returns. *)
Definition decision (r : callback_result) : option outcome :=
  match ended r with
  | Return rc => Some (outcome_of_rc rc)
  | Fault _ => None
  end.

End DecisionEngine.

(** ** Concrete environments for the examples *)

Module TestDoubles.

Definition x86 : Platform :=
  {| char_signed := true; indeterminate n := replicate n xcc |}.

Definition sum_bytes (l : list byte) : Z :=
  foldr (fun b acc => byte_val b + acc) 0 l.

(** A stand-in for the key derivation: deterministic in the password, the
    salt and the iteration count. *)
Definition toy_kdf (pass : string) (salt : list byte) (iter keylen : Z)
  : list byte :=
  map (fun i => byte_of_val
         ((sum_bytes (String.list_byte_of_string pass) + sum_bytes salt
           + iter + i) mod 256))
      (seqZ 0 keylen).

Definition toy_crypto : CryptoProvider :=
  {| rng := nat;
     RAND_bytes g buf num :=
       (1, replicate (Z.to_nat num) (byte_of_val (Z.of_nat g mod 256)), S g);
     EVP_MD := unit;
     EVP_get_digestbyname name :=
       if decide (name = "sha512"%string) then Some tt else None;
     PKCS5_PBKDF2_HMAC pass passlen salt saltlen iter digest keylen out :=
       (1, toy_kdf pass salt iter keylen) |}.

(** The crypto provider cannot resolve any digest. *)
Definition no_digest_crypto : CryptoProvider :=
  {| rng := nat;
     RAND_bytes := @RAND_bytes toy_crypto;
     EVP_MD := unit;
     EVP_get_digestbyname name := None;
     PKCS5_PBKDF2_HMAC := @PKCS5_PBKDF2_HMAC toy_crypto |}.

(** The random source clears the buffer and then reports failure. *)
Definition failing_rand_crypto : CryptoProvider :=
  {| rng := nat;
     RAND_bytes g buf num := (0, replicate (Z.to_nat num) x00, g);
     EVP_MD := unit;
     EVP_get_digestbyname := @EVP_get_digestbyname toy_crypto;
     PKCS5_PBKDF2_HMAC := @PKCS5_PBKDF2_HMAC toy_crypto |}.

Definition with_lua : PluginConfig :=
  {| PW_DEFAULT_ITERATIONS := 101; WITH_LUA := true |}.

Definition without_lua : PluginConfig :=
  {| PW_DEFAULT_ITERATIONS := 101; WITH_LUA := false |}.

(** An interpreter whose state is the behaviour of the loaded chunk: the
    status [lua_pcall] reports and the value it leaves. *)
Definition toy_lua : LuaRuntime :=
  {| lua_State := (Z * lua_value)%type;
     lua_pcall L arg := (L.1, L.2, L);
     lua_tostring v := match v with LString s => Some s | _ => None end;
     luaL_checkinteger v := match v with LNumber n => Some n | _ => None end |}.

Definition salt16 : list byte := replicate 16 x5a.

(** A record whose password is [passwd], hashed with [iter] iterations. *)
Definition record_for (passwd : string) (iter : Z) (cid : option string)
    (off : bool) : dynsec__client :=
  {| pw := {| password_hash := toy_kdf passwd salt16 iter 64;
              salt := salt16; iterations := iter; valid := true |};
     clientid := cid; disabled := off |}.

Definition alice : dynsec__client := record_for "Secret123!" 10000 None false.
Definition bob : dynsec__client := record_for "hunter2" 10000 None true.
Definition carol : dynsec__client :=
  record_for "pw-carol" 10000 (Some "dev-1"%string) false.
(** No password was ever set for erin. *)
Definition erin : dynsec__client :=
  {| pw := {| password_hash := replicate 64 x00; salt := replicate 16 x00;
              iterations := 0; valid := false |};
     clientid := None; disabled := false |}.

Definition directory : gmap string dynsec__client :=
  {[ "alice"%string := alice; "bob"%string := bob; "carol"%string := carol;
     "erin"%string := erin ]}.

Definition attempt (uname passwd cid : option string)
  : mosquitto_evt_basic_auth :=
  {| ed_client := {| mosq_id := cid; mosq_address := Some "10.0.0.7"%string |};
     username := uname; password := passwd |}.

Definition initial_state (crypto : CryptoProvider) (g : @rng crypto)
  : @plugin_state crypto :=
  @Build_plugin_state crypto directory g [].

(** The callback on the platform and interpreter above. *)
Definition callback (crypto : CryptoProvider) (cfg : PluginConfig)
    (ed : mosquitto_evt_basic_auth) (L : option (Z * lua_value))
    (st : @plugin_state crypto) : @callback_result crypto toy_lua :=
  @dynsec_auth__basic_auth_callback x86 crypto cfg toy_lua ed L st.

(** The engine of the specification: username, password, connecting
    identity; the hook is the interpreter state [L]. *)
Definition engine (crypto : CryptoProvider) (g : @rng crypto)
    (cfg : PluginConfig) (L : option (Z * lua_value))
    (uname passwd cid : option string) : option outcome :=
  @decision crypto toy_lua
    (callback crypto cfg (attempt uname passwd cid) L
       (initial_state crypto g)).

End TestDoubles.

(** * Properties *)

(** ** C integers *)

Lemma to_int_id z : CInt.in_int z -> CInt.to_int z = z.
Proof.
  unfold CInt.in_int, CInt.INT_MIN, CInt.INT_MAX, CInt.to_int. intros Hz.
  rewrite Z.mod_small by lia. lia.
Qed.

Lemma to_int_range z : CInt.in_int (CInt.to_int z).
Proof.
  unfold CInt.in_int, CInt.INT_MIN, CInt.INT_MAX, CInt.to_int.
  pose proof (Z.mod_pos_bound (z + 2 ^ 31) (2 ^ 32)). lia.
Qed.


(** ** The base64 transform: decode after encode *)

Module Base64Facts.
Import Base64.

Lemma list_ind3 {A} (P : list A -> Prop) :
  P [] -> (forall a, P [a]) -> (forall a b, P [a; b]) ->
  (forall a b c l, P l -> P (a :: b :: c :: l)) ->
  forall l, P l.
Proof.
  intros H0 H1 H2 H3. fix IH 1.
  intros [|a [|b [|c l]]]; [exact H0 | exact (H1 a) | exact (H2 a b) |].
  exact (H3 a b c l (IH l)).
Qed.

Lemma byte_val_range b : 0 <= byte_val b < 256.
Proof.
  unfold byte_val. pose proof (Byte.to_N_bounded b). lia.
Qed.

Lemma byte_of_val_val b : byte_of_val (byte_val b) = b.
Proof.
  unfold byte_of_val, byte_val. rewrite N2Z.id, Byte.of_to_N. reflexivity.
Qed.

Lemma sextet_cases (v : Z) (P : Z -> Prop) `{!forall w, Decision (P w)} :
  0 <= v < 64 ->
  forallb (fun w => bool_decide (P w)) (seqZ 0 64) = true -> P v.
Proof.
  intros Hv HP. rewrite forallb_forall in HP.
  eapply bool_decide_eq_true_1, HP, list_elem_of_In, elem_of_seqZ. lia.
Qed.

Lemma ascii2bin_bin2ascii v :
  conv_ascii2bin (conv_bin2ascii v) = Some (v mod 64).
Proof.
  unfold conv_bin2ascii.
  assert (Hr : 0 <= v mod 64 < 64) by (apply Z.mod_pos_bound; lia).
  revert Hr. generalize (v mod 64). intros w Hw.
  apply (sextet_cases w
           (fun w => conv_ascii2bin (nth (Z.to_nat w) alphabet pad) = Some w) Hw).
  vm_compute. reflexivity.
Qed.

Lemma bin2ascii_not_pad v : conv_bin2ascii v <> pad.
Proof.
  unfold conv_bin2ascii.
  assert (Hr : 0 <= v mod 64 < 64) by (apply Z.mod_pos_bound; lia).
  revert Hr. generalize (v mod 64). intros w Hw.
  apply (sextet_cases w (fun w => nth (Z.to_nat w) alphabet pad <> pad) Hw).
  vm_compute. reflexivity.
Qed.

Lemma group24_range b0 b1 b2 : 0 <= group24 b0 b1 b2 < 16777216.
Proof.
  unfold group24.
  pose proof (byte_val_range b0). pose proof (byte_val_range b1).
  pose proof (byte_val_range b2). lia.
Qed.

Lemma ungroup24_sextets g :
  0 <= g < 16777216 ->
  ungroup24 ((g / 262144) mod 64) ((g / 4096) mod 64) ((g / 64) mod 64)
            (g mod 64) = g.
Proof.
  intros Hg. unfold ungroup24. Z.div_mod_to_equations. lia.
Qed.

Lemma bytes_of_group24 b0 b1 b2 n :
  bytes_of_group (group24 b0 b1 b2) n = take n [b0; b1; b2].
Proof.
  unfold bytes_of_group, group24.
  pose proof (byte_val_range b0). pose proof (byte_val_range b1).
  pose proof (byte_val_range b2).
  replace ((byte_val b0 * 65536 + byte_val b1 * 256 + byte_val b2)
             / 65536 mod 256) with (byte_val b0)
    by (Z.div_mod_to_equations; lia).
  replace ((byte_val b0 * 65536 + byte_val b1 * 256 + byte_val b2)
             / 256 mod 256) with (byte_val b1)
    by (Z.div_mod_to_equations; lia).
  replace ((byte_val b0 * 65536 + byte_val b1 * 256 + byte_val b2)
             mod 256) with (byte_val b2)
    by (Z.div_mod_to_equations; lia).
  rewrite !byte_of_val_val. reflexivity.
Qed.

Lemma decode_quad_encode b0 b1 b2 :
  let g := group24 b0 b1 b2 in
  decode_quad (conv_bin2ascii (g / 262144)) (conv_bin2ascii (g / 4096))
              (conv_bin2ascii (g / 64)) (conv_bin2ascii g)
  = Some [b0; b1; b2].
Proof.
  intros g. unfold decode_quad. rewrite !ascii2bin_bin2ascii. simpl.
  rewrite ungroup24_sextets by apply group24_range.
  unfold g. rewrite bytes_of_group24. reflexivity.
Qed.

Lemma encode_nil_inv l : encode l = [] -> l = [].
Proof. destruct l as [|a [|b [|c l]]]; simpl; congruence. Qed.

Theorem decode_encode l : decode (encode l) = Some l.
Proof.
  induction l as [|b0|b0 b1|b0 b1 b2 l IH] using list_ind3.
  - reflexivity.
  - cbn [encode decode]. unfold decode_last.
    rewrite decide_True by reflexivity. rewrite decide_True by reflexivity.
    rewrite !ascii2bin_bin2ascii. simpl.
    set (g := group24 b0 "000" "000").
    replace (ungroup24 ((g / 262144) mod 64) ((g / 4096) mod 64) 0 0)
      with g.
    + unfold g. rewrite bytes_of_group24. reflexivity.
    + pose proof (byte_val_range b0).
      unfold ungroup24, g, group24. change (byte_val "000") with 0.
      Z.div_mod_to_equations. lia.
  - cbn [encode decode]. unfold decode_last.
    rewrite decide_True by reflexivity.
    rewrite decide_False by apply bin2ascii_not_pad.
    rewrite !ascii2bin_bin2ascii. simpl.
    set (g := group24 b0 b1 "000").
    replace (ungroup24 ((g / 262144) mod 64) ((g / 4096) mod 64)
                       ((g / 64) mod 64) 0) with g.
    + unfold g. rewrite bytes_of_group24. reflexivity.
    + pose proof (byte_val_range b0). pose proof (byte_val_range b1).
      unfold ungroup24, g, group24. change (byte_val "000") with 0.
      Z.div_mod_to_equations. lia.
  - cbn [encode decode].
    destruct (encode l) as [|c t] eqn:He.
    + apply encode_nil_inv in He. subst l.
      unfold decode_last. rewrite decide_False by apply bin2ascii_not_pad.
      apply decode_quad_encode.
    + rewrite decode_quad_encode.
      cbn [mbind option_bind]. rewrite IH. reflexivity.
Qed.

Lemma encode_length l :
  Z.of_nat (length (encode l)) = 4 * ((Z.of_nat (length l) + 2) / 3).
Proof.
  induction l as [|b0|b0 b1|b0 b1 b2 l IH] using list_ind3;
    try reflexivity.
  cbn [encode length]. rewrite !Nat2Z.inj_succ, IH.
  Z.div_mod_to_equations. lia.
Qed.

Lemma encode_no_NUL l : Forall (fun c => c <> NUL) (encode l).
Proof.
  assert (Hc : forall v, conv_bin2ascii v <> NUL).
  { intros v. unfold conv_bin2ascii.
    assert (Hr : 0 <= v mod 64 < 64) by (apply Z.mod_pos_bound; lia).
      revert Hr. generalize (v mod 64). intros w Hw.
    apply (sextet_cases w (fun w => nth (Z.to_nat w) alphabet pad <> NUL) Hw).
    vm_compute. reflexivity. }
  induction l as [|b0|b0 b1|b0 b1 b2 l IH] using list_ind3;
    cbn [encode]; repeat constructor; auto; discriminate.
Qed.

End Base64Facts.

(** ** The allocator *)

Lemma fresh_unmapped (h : heap) : h !! fresh (dom h) = None.
Proof. apply not_elem_of_dom, is_fresh. Qed.

Lemma free_after_alloc (h : heap) (f : list byte -> list byte) blk :
  let a := fresh (dom h) in
  mosquitto_free (Some a) (alter f a (<[a := blk]> h)) = h.
Proof.
  intros a. unfold mosquitto_free.
  rewrite alter_insert_eq, delete_insert_eq.
  apply delete_id, fresh_unmapped.
Qed.

Lemma store_bytes_prefix (bytes block : list byte) :
  (length bytes <= length block)%nat ->
  take (length bytes) (store_bytes bytes block) = bytes.
Proof.
  intros Hle. unfold store_bytes.
  rewrite take_take, Nat.min_l by exact Hle.
  apply take_app_length.
Qed.

(** ** C strings *)

Lemma strlen_terminated (t : list byte) :
  Forall (fun c => c <> NUL) t -> strlen (t ++ [NUL]) = length t.
Proof.
  induction 1 as [|c t Hc _ IH]; simpl.
  - reflexivity.
  - rewrite decide_False by exact Hc. rewrite IH. reflexivity.
Qed.

(** ** The codec *)

Section CodecFacts.
Context `{Base64BIO}.

(** C10. Whenever the decoder fails because the decoded length is zero or
    negative, it returns 1 with the caller's [decoded] set to NULL and
    [decoded_len] set to 0, and the buffer it allocated has been freed: the
    heap is the one the call started with, so no partially decoded byte stays
    reachable. *)
Theorem decode_nonpositive_cleanup (env : bio_env) (in_ : list byte)
    (st : decode_state) :
  b64_new_ok env = true -> bmem_new_ok env = true -> flush_rc env = 1 ->
  alloc_ok env = true ->
  read_count in_ <= 0 ->
  let d := dynsec_auth__base64_decode env in_ st in
  d.1 = 1 /\ decoded d.2 = None /\ decoded_len d.2 = 0 /\
  dec_heap d.2 = dec_heap st /\ decoded_bytes d.2 = None.
Proof.
  intros Hb64 Hmem Hflush Halloc Hread. unfold read_count in Hread.
  unfold dynsec_auth__base64_decode, mosquitto_calloc.
  rewrite Hb64, Hmem, Halloc. cbn [negb].
  rewrite decide_False by (rewrite Hflush; auto).
  destruct (bio_b64_read _ _) as [r bytes]. cbn [fst] in Hread.
  rewrite decide_True by exact Hread. cbn [fst snd decoded decoded_len dec_heap].
  repeat split. apply free_after_alloc.
Qed.

End CodecFacts.

Lemma decode_nonpositive_cleanup_witness :
  let in_ := String.list_byte_of_string "!!!!" ++ [NUL] in
  let st := {| dec_heap := {[ 7%positive := [x41] ]}; decoded := Some 7%positive;
               decoded_len := 1 |} in
  let d := dynsec_auth__base64_decode resources_ok in_ st in
  read_count in_ <= 0 /\
  d.1 = 1 /\ decoded d.2 = None /\ decoded_len d.2 = 0 /\
  dec_heap d.2 = dec_heap st /\ decoded_bytes d.2 = None.
Proof.
  intros in_ st d.
  assert (Hr : read_count in_ <= 0) by (vm_compute; discriminate).
  split; [exact Hr|].
  exact (decode_nonpositive_cleanup resources_ok in_ st eq_refl eq_refl
           eq_refl eq_refl Hr).
Defined.

(** *** Round trip through the standard transform *)

Lemma standard_read_encode (b : list byte) :
  b <> [] ->
  let n := Z.of_nat (length (Base64.encode b)) in
  bio_b64_read (Base64.encode b) n = (Z.of_nat (length b), b).
Proof.
  intros Hb n. cbn [bio_b64_read StandardBase64].
  assert (Hlen : Z.of_nat (length b) <= n).
  { unfold n. rewrite Base64Facts.encode_length.
    Z.div_mod_to_equations. lia. }
  assert (Hpos : 0 < Z.of_nat (length b)) by (destruct b; [done | simpl; lia]).
  rewrite decide_False by lia.
  rewrite Base64Facts.decode_encode.
  destruct b as [|x b]; [done|].
  rewrite take_ge by lia. reflexivity.
Qed.

(** C3 (as the code has it). For every non-empty byte buffer whose encoding
    is at most INT_MAX characters long, and with every BIO and allocation
    granted, the encoder returns 0 with a NUL-terminated text, and the decoder
    applied to that text returns 0, reports the original length, and the
    first [decoded_len] bytes of its buffer are the original bytes. *)
Theorem codec_roundtrip_nonempty (h : heap) (b : list byte) :
  b <> [] ->
  4 * ((Z.of_nat (length b) + 2) / 3) <= CInt.INT_MAX ->
  roundtrips resources_ok resources_ok h b.
Proof.
  intros Hb Hmax. unfold roundtrips.
  unfold dynsec_auth__base64_encode, mosquitto_malloc.
  cbn [resources_ok b64_new_ok bmem_new_ok flush_rc alloc_ok negb].
  rewrite decide_False by lia. rewrite decide_False by auto.
  cbn [fst snd]. split; [reflexivity|].
  rewrite Nat2Z.id, firstn_all.
  cbn [bio_b64_write StandardBase64].
  set (text := Base64.encode b).
  exists (text ++ [NUL]). split.
  { unfold encoded_text. cbn [encoded enc_heap mbind option_bind].
    apply lookup_insert_eq. }
  cbn [enc_heap].
  unfold dynsec_auth__base64_decode, mosquitto_calloc.
  cbn [resources_ok b64_new_ok bmem_new_ok flush_rc alloc_ok negb dec_heap].
  rewrite decide_False by auto.
  rewrite strlen_terminated by apply Base64Facts.encode_no_NUL.
  assert (Hn : Z.of_nat (length text) = 4 * ((Z.of_nat (length b) + 2) / 3))
    by apply Base64Facts.encode_length.
  rewrite to_int_id
    by (unfold CInt.in_int, CInt.INT_MIN; unfold CInt.INT_MAX in *; lia).
  rewrite Nat2Z.id, take_app_length.
  pose proof (standard_read_encode b Hb) as Hread. cbv zeta in Hread.
  fold text in Hread. rewrite Hread.
  assert (Hpos : 0 < Z.of_nat (length b)) by (destruct b; [done | simpl; lia]).
  rewrite decide_False by lia. cbn [fst snd decoded_len].
  split; [reflexivity|]. split; [reflexivity|].
  unfold decoded_bytes. cbn [decoded dec_heap decoded_len mbind option_bind].
  rewrite lookup_alter_eq, lookup_insert_eq. cbn [fmap option_fmap option_map].
  rewrite Nat2Z.id. cbn [mbind option_bind].
  rewrite store_bytes_prefix; [reflexivity|].
  rewrite length_replicate.
  assert (Z.of_nat (length b) <= Z.of_nat (length text))
    by (rewrite Hn; Z.div_mod_to_equations; lia).
  lia.
Qed.

Lemma codec_roundtrip_nonempty_witness :
  all_byte_values <> [] /\
  4 * ((Z.of_nat (length all_byte_values) + 2) / 3) <= CInt.INT_MAX /\
  roundtrips resources_ok resources_ok ∅ all_byte_values.
Proof.
  assert (H1 : all_byte_values <> []) by (vm_compute; discriminate).
  assert (H2 : 4 * ((Z.of_nat (length all_byte_values) + 2) / 3)
               <= CInt.INT_MAX) by (vm_compute; discriminate).
  exact (conj H1 (conj H2 (codec_roundtrip_nonempty ∅ all_byte_values H1 H2))).
Defined.

Lemma all_byte_values_complete (b : byte) : b ∈ all_byte_values.
Proof.
  unfold all_byte_values. apply list_elem_of_fmap.
  exists (byte_val b). split.
  - symmetry. apply Base64Facts.byte_of_val_val.
  - apply elem_of_seqZ. pose proof (Base64Facts.byte_val_range b). lia.
Qed.

(** The decoder never succeeds on the empty text, whatever the allocator
    answers for a request of zero bytes. *)
Lemma decode_empty_text_fails (env : bio_env) (st : decode_state) :
  (dynsec_auth__base64_decode env [NUL] st).1 = 1.
Proof.
  unfold dynsec_auth__base64_decode, mosquitto_calloc.
  destruct (b64_new_ok env), (bmem_new_ok env), (alloc_ok env),
    (decide (flush_rc env <> 1)); reflexivity.
Qed.

(** C3, the empty buffer: the encoder returns the empty text, and the decoder
    fails on it, because a decoded length of zero is reported as failure. *)
Lemma codec_roundtrip_empty_fails :
  ~ roundtrips resources_ok resources_ok ∅ [].
Proof.
  unfold roundtrips. intros [_ (text & Htext & Hrc & _)].
  vm_compute in Htext. injection Htext as <-.
  vm_compute in Hrc. discriminate.
Qed.

(** ** The comparator *)

Section ComparatorFacts.
Context `{Platform}.

Lemma char_of_byte_inj (x y : byte) :
  char_of_byte x = char_of_byte y -> x = y.
Proof.
  unfold char_of_byte. intros Hxy.
  pose proof (Base64Facts.byte_val_range x) as Hx.
  pose proof (Base64Facts.byte_val_range y) as Hy.
  assert (Hv : byte_val x = byte_val y).
  { destruct char_signed; cbn [andb] in Hxy; [|exact Hxy].
    repeat case_bool_decide; lia. }
  rewrite <- (Base64Facts.byte_of_val_val x), <- (Base64Facts.byte_of_val_val y).
  rewrite Hv. reflexivity.
Qed.

Lemma lor_lxor_zero (rc u v : Z) :
  Z.lor rc (Z.lxor u v) = 0 <-> rc = 0 /\ u = v.
Proof.
  rewrite Z.lor_eq_0_iff, Z.lxor_eq_0_iff. reflexivity.
Qed.

(** The loop returns, and its result is zero exactly when the accumulator
    was zero and the [k] bytes from index [i] on agree. *)
Lemma memcmp_const_loop_spec (a b : list byte) (k i : nat) (rc : Z) :
  (i + k <= length a)%nat -> (i + k <= length b)%nat ->
  exists r, memcmp_const_loop a b i k rc = Some r /\
    (r = 0 <-> rc = 0 /\ take k (drop i a) = take k (drop i b)).
Proof.
  revert i rc. induction k as [|k IH]; intros i rc Ha Hb.
  - exists rc. split; [reflexivity|]. rewrite !take_0. tauto.
  - cbn [memcmp_const_loop].
    destruct (lookup_lt_is_Some_2 a i ltac:(lia)) as [x Hx].
    destruct (lookup_lt_is_Some_2 b i ltac:(lia)) as [y Hy].
    rewrite Hx, Hy. cbn [mbind option_bind].
    destruct (IH (S i) (Z.lor rc (Z.lxor (char_of_byte x) (char_of_byte y))))
      as (r & Hr & Hiff); [lia | lia |].
    exists r. split; [exact Hr|].
    rewrite Hiff, lor_lxor_zero.
    rewrite (drop_S a x i Hx), (drop_S b y i Hy). cbn [take].
    split.
    + intros [[-> Hc] Ht]. apply char_of_byte_inj in Hc. subst y.
      rewrite Ht. tauto.
    + intros [-> Hl]. injection Hl as -> Ht. tauto.
Qed.

Lemma memcmp_const_zero_iff (a b : list byte) (n : nat) :
  (n <= length a)%nat -> (n <= length b)%nat ->
  exists r, memcmp_const (Some a) (Some b) n = Some r /\
    (r = 0 <-> take n a = take n b).
Proof.
  intros Ha Hb.
  destruct (memcmp_const_loop_spec a b n 0 0) as (r & Hr & Hiff); [lia | lia |].
  exists r. split; [exact Hr|]. rewrite Hiff, !drop_0. tauto.
Qed.

(** C5. For all lengths [n] (zero included) and non-null buffers holding at
    least [n] bytes, the comparator returns, and returns 0 (equal) if and
    only if the buffers agree on their first [n] bytes; with a null buffer on
    either side it returns 1 (not equal). *)
Theorem memcmp_const_correct (a b : list byte) (n : nat) :
  (n <= length a)%nat -> (n <= length b)%nat ->
  (exists r, memcmp_const (Some a) (Some b) n = Some r /\
     (r = 0 <-> take n a = take n b)) /\
  memcmp_const None (Some b) n = Some 1 /\
  memcmp_const (Some a) None n = Some 1 /\
  memcmp_const None None n = Some 1.
Proof.
  intros Ha Hb. split; [|repeat split].
  apply memcmp_const_zero_iff; assumption.
Qed.

End ComparatorFacts.

(** ** Scenarios of the specification *)

Module Scenarios.
Import TestDoubles.

Example alice_accept :
  engine toy_crypto O without_lua None
    (Some "alice"%string) (Some "Secret123!"%string) (Some "any"%string)
  = Some ACCEPT.
Proof. vm_compute. reflexivity. Qed.

Example alice_wrong_password :
  engine toy_crypto O without_lua None
    (Some "alice"%string) (Some "wrong"%string) (Some "any"%string)
  = Some REJECT.
Proof. vm_compute. reflexivity. Qed.

Example dave_unknown :
  engine toy_crypto O without_lua None
    (Some "dave"%string) (Some "x"%string) (Some "any"%string)
  = Some DEFER.
Proof. vm_compute. reflexivity. Qed.

Example bob_disabled :
  engine toy_crypto O without_lua None
    (Some "bob"%string) (Some "hunter2"%string) (Some "any"%string)
  = Some REJECT.
Proof. vm_compute. reflexivity. Qed.

Example carol_other_device :
  engine toy_crypto O without_lua None
    (Some "carol"%string) (Some "pw-carol"%string) (Some "dev-2"%string)
  = Some REJECT.
Proof. vm_compute. reflexivity. Qed.

Example carol_own_device :
  engine toy_crypto O without_lua None
    (Some "carol"%string) (Some "pw-carol"%string) (Some "dev-1"%string)
  = Some ACCEPT.
Proof. vm_compute. reflexivity. Qed.

Example absent_username :
  engine toy_crypto O without_lua None
    None (Some "x"%string) (Some "any"%string)
  = Some DEFER.
Proof. vm_compute. reflexivity. Qed.

Example absent_password :
  engine toy_crypto O without_lua None
    (Some "dave"%string) None (Some "any"%string)
  = Some DEFER.
Proof. vm_compute. reflexivity. Qed.

(** A hook that completes does not change the answer, whatever it leaves on
    the stack. *)
Example alice_accept_hook_returns_number :
  engine toy_crypto O with_lua (Some (0, LNumber 0))
    (Some "alice"%string) (Some "Secret123!"%string) (Some "any"%string)
  = Some ACCEPT.
Proof. vm_compute. reflexivity. Qed.

(** Setting a password and verifying it afterwards. *)
Example set_then_verify :
  let '(rc, client, h, g) :=
    @dynsec_auth__pw_hash toy_crypto with_lua erin "fresh"
      (replicate 64 x00) 64 true 3%nat in
  rc = MOSQ_ERR_SUCCESS /\ iterations (pw client) = 101 /\
  (@dynsec_auth__pw_hash toy_crypto with_lua client "fresh"
     (replicate 64 x00) 64 false g).1.1 = (MOSQ_ERR_SUCCESS, client) /\
  (@dynsec_auth__pw_hash toy_crypto with_lua client "fresh"
     (replicate 64 x00) 64 false g).1.2 = h.
Proof. vm_compute. repeat split. Qed.

End Scenarios.

(** ** The hasher *)

Section HasherFacts.
Context `{CryptoProvider} `{PluginConfig}.

Lemma set_iterations_same (client : dynsec__client) :
  set_iterations (iterations (pw client)) client = client.
Proof. destruct client as [[] ? ?]. reflexivity. Qed.

Lemma set_salt_same (client : dynsec__client) :
  set_salt (salt (pw client)) client = client.
Proof. destruct client as [[] ? ?]. reflexivity. Qed.

(** With the record's own iteration count, the derivation leaves the record
    and the random source as they are. *)
Lemma pw_hash_derive_frame (client : dynsec__client) (passwd : string)
    (buf : list byte) (len : Z) (g : rng) :
  let r := pw_hash_derive client passwd buf len (iterations (pw client)) g in
  r.1.1.2 = client /\ r.2 = g.
Proof.
  unfold pw_hash_derive.
  destruct (decide (iterations (pw client) < 1)); [split; reflexivity|].
  rewrite set_iterations_same.
  destruct (EVP_get_digestbyname "sha512"); [|split; reflexivity].
  destruct (PKCS5_PBKDF2_HMAC _ _ _ _ _ _ _ _). split; reflexivity.
Qed.

(** C9. A call with [new_password = false] leaves the record's salt and
    iteration count (indeed the whole record) and the random source as they
    were, and when the derivation is reached its result is the one the key
    derivation function gives for the stored salt and the stored iteration
    count. *)
Theorem pw_hash_verify_reuses_stored (client : dynsec__client)
    (passwd : string) (buf : list byte) (len : Z) (g : rng) :
  let '(rc, client', out, g') :=
    dynsec_auth__pw_hash client passwd buf len false g in
  salt (pw client') = salt (pw client) /\
  iterations (pw client') = iterations (pw client) /\
  client' = client /\ g' = g /\
  forall digest,
    1 <= iterations (pw client) ->
    EVP_get_digestbyname "sha512" = Some digest ->
    (rc, out) =
      let '(r, o) :=
        PKCS5_PBKDF2_HMAC passwd
          (CInt.to_int (Z.of_nat (String.length passwd)))
          (salt (pw client)) (Z.of_nat (length (salt (pw client))))
          (iterations (pw client)) digest len buf in
      (lnot r, o).
Proof.
  cbn [dynsec_auth__pw_hash].
  pose proof (pw_hash_derive_frame client passwd buf len g) as Hframe.
  cbv zeta in Hframe.
  destruct (pw_hash_derive client passwd buf len (iterations (pw client)) g)
    as [[[rc client'] out] g'] eqn:Hd.
  cbn [fst snd] in Hframe. destruct Hframe as [-> ->].
  repeat split.
  intros digest Hiter Hdigest. unfold pw_hash_derive in Hd.
  rewrite decide_False in Hd by lia. rewrite Hdigest in Hd.
  rewrite set_iterations_same in Hd.
  destruct (PKCS5_PBKDF2_HMAC _ _ _ _ _ _ _ _) as [r o].
  congruence.
Qed.

(** C4 (as the code has it). When [RAND_bytes] does not return 1 in a call
    with [new_password = true], the call returns MOSQ_ERR_UNKNOWN without
    touching the iteration count, the stored hash, the other fields of the
    record or the caller's output buffer. The salt is what [RAND_bytes] left
    in the record's salt buffer, which the call hands to it directly: the
    record is unmodified when the random source wrote nothing there. *)
Theorem pw_hash_rand_failure (client : dynsec__client) (passwd : string)
    (buf : list byte) (len : Z) (g : rng) :
  let rand_result :=
    RAND_bytes g (salt (pw client)) (Z.of_nat (length (salt (pw client)))) in
  rand_result.1.1 <> 1 ->
  let '(rc, client', out, g') :=
    dynsec_auth__pw_hash client passwd buf len true g in
  rc = MOSQ_ERR_UNKNOWN /\
  iterations (pw client') = iterations (pw client) /\
  password_hash (pw client') = password_hash (pw client) /\
  valid (pw client') = valid (pw client) /\
  clientid client' = clientid client /\
  disabled client' = disabled client /\
  out = buf /\
  salt (pw client') = rand_result.1.2 /\
  (rand_result.1.2 = salt (pw client) -> client' = client).
Proof.
  intros rand_result Hfail. cbn [dynsec_auth__pw_hash].
  fold rand_result. destruct rand_result as [[r salt'] g'].
  cbn [fst snd] in Hfail |- *.
  rewrite decide_True by exact Hfail.
  repeat split. intros ->. apply set_salt_same.
Qed.

End HasherFacts.

Lemma pw_hash_verify_reuses_stored_witness :
  let client := TestDoubles.alice in
  let '(rc, client', out, g') :=
    @dynsec_auth__pw_hash TestDoubles.toy_crypto TestDoubles.with_lua
      client "Secret123!" (replicate 64 x00) 64 false 5%nat in
  1 <= iterations (pw client) /\
  @EVP_get_digestbyname TestDoubles.toy_crypto "sha512" = Some tt /\
  salt (pw client') = salt (pw client) /\
  iterations (pw client') = iterations (pw client) /\
  (rc, out) = (0, password_hash (pw client)).
Proof.
  pose proof (@pw_hash_verify_reuses_stored TestDoubles.toy_crypto
                TestDoubles.with_lua TestDoubles.alice "Secret123!"
                (replicate 64 x00) 64 5%nat) as Hthm.
  cbv zeta.
  destruct (@dynsec_auth__pw_hash TestDoubles.toy_crypto TestDoubles.with_lua
              TestDoubles.alice "Secret123!" (replicate 64 x00) 64 false 5%nat)
    as [[[rc client'] out] g'].
  destruct Hthm as (Hsalt & Hiter & _ & _ & Hused).
  assert (H1 : 1 <= iterations (pw TestDoubles.alice))
    by (vm_compute; discriminate).
  assert (H2 : @EVP_get_digestbyname TestDoubles.toy_crypto "sha512" = Some tt)
    by reflexivity.
  repeat split; try assumption.
  exact (Hused tt H1 H2).
Defined.

Lemma pw_hash_rand_failure_witness :
  let client := TestDoubles.erin in
  let '(rc, client', out, g') :=
    @dynsec_auth__pw_hash TestDoubles.failing_rand_crypto TestDoubles.with_lua
      client "new-password" (replicate 64 x00) 64 true 0%nat in
  rc = MOSQ_ERR_UNKNOWN /\ client' = client /\ out = replicate 64 x00.
Proof.
  pose proof (@pw_hash_rand_failure TestDoubles.failing_rand_crypto
                TestDoubles.with_lua TestDoubles.erin "new-password"
                (replicate 64 x00) 64 0%nat) as Hthm.
  cbv zeta in Hthm |- *.
  destruct (@dynsec_auth__pw_hash TestDoubles.failing_rand_crypto
              TestDoubles.with_lua TestDoubles.erin "new-password"
              (replicate 64 x00) 64 true 0%nat)
    as [[[rc client'] out] g'].
  destruct Hthm as (Hrc & _ & _ & _ & _ & _ & Hout & _ & Hsame).
  - vm_compute. discriminate.
  - repeat split; [exact Hrc | | exact Hout].
    apply Hsame. reflexivity.
Defined.

(** C4, the salt: with a random source that clears the buffer before it
    reports failure, the call aborts and the stored salt is gone. *)
Lemma pw_hash_rand_failure_clobbers_salt :
  let client := TestDoubles.alice in
  let '(rc, client', _, _) :=
    @dynsec_auth__pw_hash TestDoubles.failing_rand_crypto TestDoubles.with_lua
      client "new-password" (replicate 64 x00) 64 true 0%nat in
  (@RAND_bytes TestDoubles.failing_rand_crypto 0%nat (salt (pw client)) 16).1.1
    <> 1 /\
  rc = MOSQ_ERR_UNKNOWN /\
  salt (pw client) = replicate 16 x5a /\
  salt (pw client') = replicate 16 x00 /\
  ~ (salt (pw client') = salt (pw client)).
Proof. vm_compute. repeat split; discriminate. Qed.

(** ** The decision engine *)

Section EngineFacts.
Context `{Platform} `{CryptoProvider} `{PluginConfig} `{LuaRuntime}.

Implicit Types (st : plugin_state) (ed : mosquitto_evt_basic_auth)
  (client : dynsec__client) (userdata : option lua_State).

(** The identity test of lines 189-194 passes when the binding holds. *)
Lemma identity_test_bound client ed :
  identity_bound client ed ->
  match clientid client with
  | Some bound =>
      match mosquitto_client_id (ed_client ed) with
      | None => true
      | Some cid => bool_decide (bound <> cid)
      end
  | None => false
  end = false.
Proof.
  unfold identity_bound. destruct (clientid client) as [bound|]; [|done].
  intros ->. apply bool_decide_eq_false. auto.
Qed.

(** Verification hands the record back as it was. *)
Lemma verify_hash_frame client passwd (g : rng) :
  (verify_hash client passwd g).1.1.2 = client /\
  (verify_hash client passwd g).2 = g.
Proof.
  unfold verify_hash. cbn [dynsec_auth__pw_hash].
  apply pw_hash_derive_frame.
Qed.

Lemma store_client_same st uname client :
  clients st !! uname = Some client ->
  store_client uname client (rand st) st = st.
Proof.
  intros Hfind. unfold store_client. rewrite insert_id by exact Hfind.
  destruct st. reflexivity.
Qed.

(** The callback on a live record: found, not disabled, identity binding
    satisfied, password material present. *)
Lemma callback_live st ed userdata uname passwd client :
  finds st ed uname passwd client ->
  disabled client = false ->
  identity_bound client ed ->
  valid (pw client) = true ->
  dynsec_auth__basic_auth_callback ed userdata st =
    let '(rc, _, password_hash', _) := verify_hash client passwd (rand st) in
    if decide (rc = MOSQ_ERR_SUCCESS) then
      match memcmp_const (Some (password_hash (pw client)))
              (Some password_hash') password_hash_size with
      | Some rc =>
          if decide (rc = 0) then notify_connected ed userdata st
          else (Return MOSQ_ERR_AUTH, st, userdata)
      | None => (Fault out_of_bounds_read, st, userdata)
      end
    else (Return MOSQ_ERR_PLUGIN_DEFER, st, userdata).
Proof.
  intros (Hu & Hp & Hfind) Hdis Hid Hvalid.
  unfold dynsec_auth__basic_auth_callback.
  rewrite Hu, Hp, Hfind, Hdis, (identity_test_bound _ _ Hid), Hvalid.
  fold (verify_hash client passwd (rand st)).
  pose proof (verify_hash_frame client passwd (rand st)) as [Hc Hg].
  destruct (verify_hash client passwd (rand st)) as [[[rc client'] h] g].
  cbn [fst snd] in Hc, Hg. subst client' g.
  rewrite (store_client_same st uname client Hfind). reflexivity.
Qed.

(** The hook block returns MOSQ_ERR_SUCCESS when the hook completes, and
    then changes nothing but the log. *)
Lemma notify_connected_completes ed userdata st :
  hook_completes ed userdata = true ->
  let r := notify_connected ed userdata st in
  ended r = Return MOSQ_ERR_SUCCESS /\
  clients r.1.2 = clients st /\ rand r.1.2 = rand st.
Proof.
  unfold hook_completes, notify_connected, ended.
  destruct WITH_LUA; [|done].
  destruct userdata as [L|]; [|done].
  destruct (lua_pcall L (hook_arg ed)) as [[status top] L'].
  intros [Hstatus Hconv]%andb_true_iff.
  apply bool_decide_eq_true in Hstatus.
  rewrite decide_False by (intros Hne; apply Hne, Hstatus).
  destruct (lua_isboolean top); [|done].
  cbn [negb orb] in Hconv. apply bool_decide_eq_true in Hconv.
  destruct Hconv as [ret_val ->]. done.
Qed.

(** A correct password makes the comparator report equality. *)
Lemma password_correct_compare client passwd (g : rng) :
  password_correct client passwd g ->
  exists h,
    verify_hash client passwd g = (MOSQ_ERR_SUCCESS, client, h, g) /\
    memcmp_const (Some (password_hash (pw client))) (Some h)
      password_hash_size = Some 0.
Proof.
  intros (_ & Hlen & Hrec). unfold recomputed_hash in Hrec.
  pose proof (verify_hash_frame client passwd g) as [Hc Hg].
  destruct (verify_hash client passwd g) as [[[rc client'] h] g'].
  cbn [fst snd] in Hc, Hg. subst client' g'.
  destruct (decide (rc = MOSQ_ERR_SUCCESS)) as [->|]; [|discriminate].
  injection Hrec as ->.
  exists (password_hash (pw client)). split; [reflexivity|].
  destruct (memcmp_const_zero_iff (password_hash (pw client))
              (password_hash (pw client)) password_hash_size)
    as (r & Hr & Hiff); [lia | lia |].
  rewrite Hr. f_equal. apply Hiff. reflexivity.
Qed.

(** C1 (as the code has it). For a found, non-disabled record with identity
    binding satisfied and password material present, a failing derivation
    step (any return code of the hasher other than MOSQ_ERR_SUCCESS) makes
    the callback return MOSQ_ERR_PLUGIN_DEFER: the outcome is DEFER, and the
    state is the one before the call. *)
Theorem derivation_failure_defers st ed userdata uname passwd client :
  finds st ed uname passwd client ->
  disabled client = false ->
  identity_bound client ed ->
  valid (pw client) = true ->
  recomputed_hash client passwd (rand st) = None ->
  let r := dynsec_auth__basic_auth_callback ed userdata st in
  ended r = Return MOSQ_ERR_PLUGIN_DEFER /\ decision r = Some DEFER /\
  r.1.2 = st.
Proof.
  intros Hfinds Hdis Hid Hvalid Hfail.
  rewrite (callback_live st ed userdata uname passwd client) by assumption.
  unfold recomputed_hash in Hfail.
  destruct (verify_hash client passwd (rand st)) as [[[rc client'] h] g].
  destruct (decide (rc = MOSQ_ERR_SUCCESS)); [discriminate|].
  repeat split.
Qed.

(** C2 (as the code has it). When the recomputed hash equals the stored
    hash, the callback returns MOSQ_ERR_SUCCESS (ACCEPT) whenever the hook is
    not compiled in, is not installed, or runs to completion, whatever value
    it returns; the directory and the random source are as before the call,
    so the hook's value reaches nothing but the log. *)
Theorem accept_when_hook_completes st ed userdata uname passwd client :
  finds st ed uname passwd client ->
  disabled client = false ->
  identity_bound client ed ->
  password_correct client passwd (rand st) ->
  hook_completes ed userdata = true ->
  let r := dynsec_auth__basic_auth_callback ed userdata st in
  ended r = Return MOSQ_ERR_SUCCESS /\ decision r = Some ACCEPT /\
  clients r.1.2 = clients st /\ rand r.1.2 = rand st.
Proof.
  intros Hfinds Hdis Hid Hpw Hhook.
  rewrite (callback_live st ed userdata uname passwd client)
    by (try assumption; apply Hpw).
  destruct (password_correct_compare _ _ _ Hpw) as (h & -> & ->).
  rewrite decide_True by reflexivity. rewrite decide_True by reflexivity.
  destruct (notify_connected_completes ed userdata st Hhook)
    as (Hend & Hclients & Hrand).
  unfold decision. rewrite Hend. auto.
Qed.

(** C6. Whenever username and password are present and the lookup finds a
    disabled record, the callback returns MOSQ_ERR_AUTH (REJECT), whatever
    the password, and leaves the state as it was. *)
Theorem disabled_rejects st ed userdata uname passwd client :
  finds st ed uname passwd client ->
  disabled client = true ->
  let r := dynsec_auth__basic_auth_callback ed userdata st in
  ended r = Return MOSQ_ERR_AUTH /\ decision r = Some REJECT /\ r.1.2 = st.
Proof.
  intros (Hu & Hp & Hfind) Hdis.
  unfold dynsec_auth__basic_auth_callback.
  rewrite Hu, Hp, Hfind, Hdis. repeat split.
Qed.

(** C7 (as the code has it). For a found, non-disabled record whose clientid
    is set: an unknowable or different connecting identifier gives
    MOSQ_ERR_AUTH (REJECT); the same identifier with the correct password
    gives MOSQ_ERR_SUCCESS (ACCEPT) when the notification hook is not
    compiled in, is not installed, or runs to completion. *)
Theorem clientid_binding st ed userdata uname passwd client bound :
  finds st ed uname passwd client ->
  disabled client = false ->
  clientid client = Some bound ->
  let r := dynsec_auth__basic_auth_callback ed userdata st in
  (mosquitto_client_id (ed_client ed) <> Some bound ->
   ended r = Return MOSQ_ERR_AUTH /\ decision r = Some REJECT) /\
  (mosquitto_client_id (ed_client ed) = Some bound ->
   password_correct client passwd (rand st) ->
   hook_completes ed userdata = true ->
   ended r = Return MOSQ_ERR_SUCCESS /\ decision r = Some ACCEPT).
Proof.
  intros Hfinds Hdis Hbound r. split.
  - intros Hne. subst r. destruct Hfinds as (Hu & Hp & Hfind).
    unfold dynsec_auth__basic_auth_callback.
    rewrite Hu, Hp, Hfind, Hdis, Hbound.
    destruct (mosquitto_client_id (ed_client ed)) as [cid|]; [|done].
    rewrite bool_decide_eq_true_2 by congruence. done.
  - intros Hsame Hpw Hhook. subst r.
    assert (Hid : identity_bound client ed)
      by (unfold identity_bound; rewrite Hbound; exact Hsame).
    rewrite (callback_live st ed userdata uname passwd client)
      by (try assumption; apply Hpw).
    destruct (password_correct_compare _ _ _ Hpw) as (h & -> & ->).
    rewrite decide_True by reflexivity. rewrite decide_True by reflexivity.
    destruct (notify_connected_completes ed userdata st Hhook) as (Hend & _).
    unfold decision. rewrite Hend. auto.
Qed.

(** C8. The callback returns MOSQ_ERR_PLUGIN_DEFER (DEFER) when the username
    or the password is absent, when no record is found for the username, and
    when a found, non-disabled record with identity binding satisfied has no
    password material. *)
Theorem defer_cases st ed userdata :
  let r := dynsec_auth__basic_auth_callback ed userdata st in
  (username ed = None \/ password ed = None ->
   ended r = Return MOSQ_ERR_PLUGIN_DEFER /\ decision r = Some DEFER) /\
  (forall uname passwd,
     username ed = Some uname -> password ed = Some passwd ->
     dynsec_clients__find st uname = None ->
     ended r = Return MOSQ_ERR_PLUGIN_DEFER /\ decision r = Some DEFER) /\
  (forall uname passwd client,
     finds st ed uname passwd client ->
     disabled client = false ->
     identity_bound client ed ->
     valid (pw client) = false ->
     ended r = Return MOSQ_ERR_PLUGIN_DEFER /\ decision r = Some DEFER).
Proof.
  intros r. subst r. unfold dynsec_auth__basic_auth_callback.
  split; [|split].
  - intros [-> | Hp]; [done|]. rewrite Hp. destruct (username ed); done.
  - intros uname passwd -> -> ->. done.
  - intros uname passwd client (-> & -> & ->) -> Hid ->.
    rewrite (identity_test_bound _ _ Hid). done.
Qed.

End EngineFacts.

(** ** The theorems at concrete attempts *)

Module Witnesses.
Import TestDoubles.

Lemma memcmp_const_correct_witness :
  let a := [x01; xff; x80; x00] in
  let b := [x01; xff; x80; x7f] in
  (exists r, @memcmp_const x86 (Some a) (Some b) 3 = Some r /\
     (r = 0 <-> take 3 a = take 3 b)) /\
  @memcmp_const x86 None (Some b) 3 = Some 1 /\
  @memcmp_const x86 (Some a) None 3 = Some 1 /\
  @memcmp_const x86 None None 3 = Some 1.
Proof.
  intros a b. apply (@memcmp_const_correct x86 a b 3); simpl; lia.
Defined.

Lemma derivation_failure_defers_witness :
  let st := initial_state no_digest_crypto O in
  let ed := attempt (Some "alice"%string) (Some "Secret123!"%string)
              (Some "any"%string) in
  let r := callback no_digest_crypto with_lua ed None st in
  ended r = Return MOSQ_ERR_PLUGIN_DEFER /\ decision r = Some DEFER /\
  r.1.2 = st.
Proof.
  intros st ed.
  apply (@derivation_failure_defers x86 no_digest_crypto with_lua toy_lua
           st ed None "alice" "Secret123!" alice).
  - repeat split.
  - reflexivity.
  - exact I.
  - reflexivity.
  - reflexivity.
Defined.

(** C1, as stated: the digest cannot be resolved, the hasher reports
    MOSQ_ERR_UNKNOWN, and the engine answers DEFER, not ERROR. *)
Lemma derivation_failure_is_not_error :
  let st := initial_state no_digest_crypto O in
  let ed := attempt (Some "alice"%string) (Some "Secret123!"%string)
              (Some "any"%string) in
  let r := callback no_digest_crypto with_lua ed None st in
  finds st ed "alice" "Secret123!" alice /\
  disabled alice = false /\ identity_bound alice ed /\
  valid (pw alice) = true /\
  (@verify_hash x86 no_digest_crypto with_lua alice "Secret123!" O).1.1.1
    = MOSQ_ERR_UNKNOWN /\
  decision r = Some DEFER /\ decision r <> Some ERROR.
Proof.
  cbv zeta. repeat split; try (vm_compute; reflexivity).
  vm_compute. discriminate.
Qed.

Lemma accept_when_hook_completes_witness :
  let st := initial_state toy_crypto O in
  let ed := attempt (Some "alice"%string) (Some "Secret123!"%string)
              (Some "any"%string) in
  let r := callback toy_crypto with_lua ed (Some (0, LString "veto")) st in
  ended r = Return MOSQ_ERR_SUCCESS /\ decision r = Some ACCEPT /\
  clients r.1.2 = clients st /\ rand r.1.2 = rand st.
Proof.
  intros st ed.
  apply (@accept_when_hook_completes x86 toy_crypto with_lua toy_lua
           st ed (Some (0, LString "veto")) "alice" "Secret123!" alice).
  - repeat split.
  - reflexivity.
  - exact I.
  - repeat split; vm_compute; reflexivity.
  - reflexivity.
Defined.

(** C2, as stated: the hash matches, the hook raises an error, and the
    engine answers ERROR (MOSQ_ERR_UNKNOWN) instead of ACCEPT. *)
Lemma hook_error_overrides_accept :
  let st := initial_state toy_crypto O in
  let ed := attempt (Some "alice"%string) (Some "Secret123!"%string)
              (Some "any"%string) in
  let r := callback toy_crypto with_lua ed (Some (1, LString "boom")) st in
  finds st ed "alice" "Secret123!" alice /\
  disabled alice = false /\ identity_bound alice ed /\
  @password_correct x86 toy_crypto with_lua alice "Secret123!" O /\
  ended r = Return MOSQ_ERR_UNKNOWN /\
  decision r = Some ERROR /\ decision r <> Some ACCEPT.
Proof.
  cbv zeta. repeat split; try (vm_compute; reflexivity).
  vm_compute. discriminate.
Qed.

Lemma disabled_rejects_witness :
  let st := initial_state toy_crypto O in
  let ed := attempt (Some "bob"%string) (Some "hunter2"%string)
              (Some "any"%string) in
  let r := callback toy_crypto with_lua ed None st in
  ended r = Return MOSQ_ERR_AUTH /\ decision r = Some REJECT /\ r.1.2 = st.
Proof.
  intros st ed.
  apply (@disabled_rejects x86 toy_crypto with_lua toy_lua
           st ed None "bob" "hunter2" bob).
  - repeat split.
  - reflexivity.
Defined.

Lemma clientid_binding_witness :
  let st := initial_state toy_crypto O in
  let dev1 := attempt (Some "carol"%string) (Some "pw-carol"%string)
                (Some "dev-1"%string) in
  let dev2 := attempt (Some "carol"%string) (Some "pw-carol"%string)
                (Some "dev-2"%string) in
  let unknown := attempt (Some "carol"%string) (Some "pw-carol"%string)
                   None in
  decision (callback toy_crypto without_lua dev2 None st) = Some REJECT /\
  decision (callback toy_crypto without_lua unknown None st) = Some REJECT /\
  decision (callback toy_crypto without_lua dev1 None st) = Some ACCEPT.
Proof.
  intros st dev1 dev2 unknown.
  assert (Hfinds : forall cid,
            finds st (attempt (Some "carol"%string) (Some "pw-carol"%string)
                        cid) "carol" "pw-carol" carol)
    by (intros cid; repeat split).
  pose proof (@clientid_binding x86 toy_crypto without_lua toy_lua st dev2
                None "carol" "pw-carol" carol "dev-1"
                (Hfinds _) eq_refl eq_refl) as [H2 _].
  pose proof (@clientid_binding x86 toy_crypto without_lua toy_lua st unknown
                None "carol" "pw-carol" carol "dev-1"
                (Hfinds _) eq_refl eq_refl) as [H0 _].
  pose proof (@clientid_binding x86 toy_crypto without_lua toy_lua st dev1
                None "carol" "pw-carol" carol "dev-1"
                (Hfinds _) eq_refl eq_refl) as [_ H1].
  split; [|split].
  - apply H2. discriminate.
  - apply H0. discriminate.
  - apply H1; [reflexivity | repeat split; vm_compute; reflexivity
              | reflexivity].
Defined.

(** C7, as stated: carol connects as dev-1 with the correct password, the
    hook raises an error, and the engine answers ERROR instead of ACCEPT. *)
Lemma bound_client_hook_error :
  let st := initial_state toy_crypto O in
  let ed := attempt (Some "carol"%string) (Some "pw-carol"%string)
              (Some "dev-1"%string) in
  let r := callback toy_crypto with_lua ed (Some (2, LString "boom")) st in
  finds st ed "carol" "pw-carol" carol /\
  disabled carol = false /\
  clientid carol = Some "dev-1"%string /\
  mosquitto_client_id (ed_client ed) = Some "dev-1"%string /\
  @password_correct x86 toy_crypto with_lua carol "pw-carol" O /\
  ended r = Return MOSQ_ERR_UNKNOWN /\
  decision r = Some ERROR /\ decision r <> Some ACCEPT.
Proof.
  cbv zeta. repeat split; try (vm_compute; reflexivity).
  vm_compute. discriminate.
Qed.

Lemma defer_cases_witness :
  let st := initial_state toy_crypto O in
  let no_user := attempt None (Some "x"%string) (Some "any"%string) in
  let no_password := attempt (Some "dave"%string) None (Some "any"%string) in
  let dave := attempt (Some "dave"%string) (Some "x"%string)
                (Some "any"%string) in
  let erin_ed := attempt (Some "erin"%string) (Some "x"%string)
                   (Some "any"%string) in
  decision (callback toy_crypto with_lua no_user None st) = Some DEFER /\
  decision (callback toy_crypto with_lua no_password None st) = Some DEFER /\
  decision (callback toy_crypto with_lua dave None st) = Some DEFER /\
  decision (callback toy_crypto with_lua erin_ed None st) = Some DEFER.
Proof.
  intros st no_user no_password dave erin_ed.
  pose proof (@defer_cases x86 toy_crypto with_lua toy_lua st no_user None)
    as (H1 & _ & _).
  pose proof (@defer_cases x86 toy_crypto with_lua toy_lua st no_password None)
    as (H2 & _ & _).
  pose proof (@defer_cases x86 toy_crypto with_lua toy_lua st dave None)
    as (_ & H3 & _).
  pose proof (@defer_cases x86 toy_crypto with_lua toy_lua st erin_ed None)
    as (_ & _ & H4).
  split; [|split; [|split]].
  - apply H1. left. reflexivity.
  - apply H2. right. reflexivity.
  - apply (H3 "dave"%string "x"%string); reflexivity.
  - apply (H4 "erin"%string "x"%string erin);
      [repeat split | reflexivity | exact I | reflexivity].
Defined.

End Witnesses.

(** * Further properties of the code *)

(** ** The codec: outcomes and the heap *)

Lemma store_bytes_length (bytes block : list byte) :
  length (store_bytes bytes block) = length block.
Proof.
  unfold store_bytes. rewrite length_take, length_app, length_drop. lia.
Qed.

Lemma to_int_le (z : Z) : 0 <= z -> CInt.to_int z <= z.
Proof.
  intros Hz. destruct (decide (z <= CInt.INT_MAX)) as [Hle|Hgt].
  - rewrite to_int_id; [lia|]. unfold CInt.in_int, CInt.INT_MIN. lia.
  - pose proof (to_int_range z) as [_ Hmax]. lia.
Qed.

(** A branch of the encoder that returns 1 with the heap as it was. *)
Ltac encode_fails :=
  split; [right; reflexivity|];
  split;
  [split; [discriminate | intros (? & ? & ? & ? & ?); (congruence || lia)]
  |intros _; split; [reflexivity | auto]].

Section CodecOutcomes.
Context `{Base64BIO}.

(** The encoder returns 0 or 1. It returns 0 exactly when the length is not
    negative and the environment grants both BIOs, the flush and the
    allocation. When it returns 1 the heap is the one before the call, and
    the caller's pointer is either untouched or NULL: no partial output. *)
Theorem encode_outcome (env : bio_env) (in_ : list byte) (in_len : Z)
    (st : encode_state) :
  let r := dynsec_auth__base64_encode env in_ in_len st in
  (r.1 = 0 \/ r.1 = 1) /\
  (r.1 = 0 <->
   0 <= in_len /\ b64_new_ok env = true /\ bmem_new_ok env = true /\
   flush_rc env = 1 /\ alloc_ok env = true) /\
  (r.1 = 1 ->
   enc_heap r.2 = enc_heap st /\
   (encoded r.2 = encoded st \/ encoded r.2 = None)).
Proof.
  unfold dynsec_auth__base64_encode, mosquitto_malloc.
  destruct (decide (in_len < 0)) as [Hneg|Hpos]; cbn [fst snd];
    [encode_fails|].
  destruct (b64_new_ok env); cbn [negb fst snd]; [|encode_fails].
  destruct (bmem_new_ok env); cbn [negb fst snd]; [|encode_fails].
  destruct (decide (flush_rc env <> 1)) as [Hfl|Hfl]; cbn [fst snd];
    [encode_fails|].
  destruct (alloc_ok env); cbn [fst snd enc_heap encoded]; [|encode_fails].
  split; [left; reflexivity|]. split; [|discriminate].
  split; [intros _|intros _; reflexivity].
  repeat split; lia.
Qed.

(** A successful encoding of the first [in_len] bytes of a buffer allocates
    one block at an address that was free, holding the filter's output for
    those bytes followed by a NUL; every block that was live before is
    untouched. *)
Theorem encode_success_block (env : bio_env) (in_ : list byte) (in_len : Z)
    (st : encode_state) :
  in_len <= Z.of_nat (length in_) ->
  (dynsec_auth__base64_encode env in_ in_len st).1 = 0 ->
  let r := dynsec_auth__base64_encode env in_ in_len st in
  exists a,
    encoded r.2 = Some a /\ enc_heap st !! a = None /\
    enc_heap r.2 !! a
      = Some (bio_b64_write (take (Z.to_nat in_len) in_) ++ [NUL]) /\
    forall p, p <> a -> enc_heap r.2 !! p = enc_heap st !! p.
Proof.
  intros _. unfold dynsec_auth__base64_encode, mosquitto_malloc.
  destruct (decide (in_len < 0)); [discriminate|].
  destruct (b64_new_ok env); [|discriminate].
  destruct (bmem_new_ok env); [|discriminate]. cbn [negb].
  destruct (decide (flush_rc env <> 1)); [discriminate|].
  destruct (alloc_ok env); [|discriminate].
  intros _. cbn [fst snd encoded enc_heap].
  exists (fresh (dom (enc_heap st))). split; [reflexivity|].
  split; [apply fresh_unmapped|]. split; [apply lookup_insert_eq|].
  intros p Hp. rewrite !lookup_insert_ne by auto. reflexivity.
Qed.

(** The decoder returns 0 or 1. When it returns 1, on whichever path, the
    heap is the one before the call: nothing it allocated stays live. When it
    returns 0 the reported length is positive and [decoded] points to a new
    block of exactly [strlen(in)] bytes at an address that was free; every
    block that was live before is untouched. *)
Theorem decode_outcome (env : bio_env) (in_ : list byte) (st : decode_state) :
  let r := dynsec_auth__base64_decode env in_ st in
  (r.1 = 0 \/ r.1 = 1) /\
  (r.1 = 1 -> dec_heap r.2 = dec_heap st) /\
  (r.1 = 0 ->
   0 < decoded_len r.2 /\
   exists a blk,
     decoded r.2 = Some a /\ dec_heap st !! a = None /\
     dec_heap r.2 !! a = Some blk /\ length blk = strlen in_ /\
     forall p, p <> a -> dec_heap r.2 !! p = dec_heap st !! p).
Proof.
  unfold dynsec_auth__base64_decode, mosquitto_calloc.
  destruct (b64_new_ok env); cbn [negb fst snd];
    [|split; [auto|split; [auto|discriminate]]].
  destruct (bmem_new_ok env); cbn [negb fst snd];
    [|split; [auto|split; [auto|discriminate]]].
  destruct (decide (flush_rc env <> 1)); cbn [fst snd];
    [split; [auto|split; [auto|discriminate]]|].
  destruct (alloc_ok env); cbn [fst snd dec_heap];
    [|split; [auto|split; [auto|discriminate]]].
  destruct (bio_b64_read _ _) as [c bytes].
  destruct (decide (c <= 0)) as [Hc|Hc];
    cbn [fst snd dec_heap decoded decoded_len].
  - split; [auto|]. split; [|discriminate]. intros _. apply free_after_alloc.
  - split; [auto|]. split; [discriminate|]. intros _. split; [lia|].
    exists (fresh (dom (dec_heap st))),
      (store_bytes bytes (replicate (strlen in_ * 1) NUL)).
    split; [reflexivity|]. split; [apply fresh_unmapped|].
    split; [rewrite alter_insert_eq; apply lookup_insert_eq|].
    split; [rewrite store_bytes_length, length_replicate; lia|].
    intros p Hp. rewrite lookup_alter_ne, lookup_insert_ne by auto.
    reflexivity.
Qed.

(** The decoder reads its input as a C string: whatever follows the first
    NUL has no influence on the call. *)
Theorem decode_stops_at_NUL (env : bio_env) (t junk : list byte)
    (st : decode_state) :
  Forall (fun c => c <> NUL) t ->
  dynsec_auth__base64_decode env (t ++ NUL :: junk) st
  = dynsec_auth__base64_decode env (t ++ [NUL]) st.
Proof.
  intros Ht.
  assert (Hlen : forall rest, strlen (t ++ NUL :: rest) = length t).
  { intros rest. induction Ht as [|c t Hc _ IH]; simpl.
    - reflexivity.
    - rewrite decide_False by exact Hc. rewrite IH. reflexivity. }
  unfold dynsec_auth__base64_decode. rewrite !Hlen.
  assert (Htake : forall rest,
            take (Z.to_nat (CInt.to_int (Z.of_nat (length t)))) (t ++ rest)
            = take (Z.to_nat (CInt.to_int (Z.of_nat (length t)))) t).
  { intros rest. apply take_app_le.
    pose proof (to_int_le (Z.of_nat (length t)) ltac:(lia)). lia. }
  rewrite !Htake. reflexivity.
Qed.

End CodecOutcomes.

(** ** The hasher: error codes and setting a password *)

(** Closes the comparisons between concrete return codes. *)
Ltac error_code_cases :=
  repeat split; auto; try lia; try discriminate;
  try (intros [? ?]; (lia || discriminate));
  try (intros [?|?]; discriminate).

Section HasherOutcomes.
Context `{CryptoProvider} `{PluginConfig}.

Lemma lnot_cases (r : Z) : lnot r = 0 /\ r <> 0 \/ lnot r = 1 /\ r = 0.
Proof. unfold lnot. destruct (decide (r = 0)); auto. Qed.

(** What a successful derivation tells about its inputs. *)
Lemma pw_hash_derive_success (client : dynsec__client) (passwd : string)
    (buf : list byte) (len it : Z) (g : rng) client' h g' :
  pw_hash_derive client passwd buf len it g
    = (MOSQ_ERR_SUCCESS, client', h, g') ->
  1 <= it /\ client' = set_iterations it client /\ g' = g /\
  exists digest r,
    EVP_get_digestbyname "sha512" = Some digest /\
    PKCS5_PBKDF2_HMAC passwd
      (CInt.to_int (Z.of_nat (String.length passwd)))
      (salt (pw client)) (Z.of_nat (length (salt (pw client))))
      it digest len buf = (r, h) /\ r <> 0.
Proof.
  unfold pw_hash_derive.
  destruct (decide (it < 1)); [discriminate|].
  destruct (EVP_get_digestbyname "sha512") as [digest|]; [|discriminate].
  cbn [set_iterations pw salt].
  destruct (PKCS5_PBKDF2_HMAC _ _ _ _ _ _ _ _) as [r o] eqn:Hk.
  intros Heq. injection Heq as Hr <- <- <-.
  split; [lia|]. repeat split. exists digest, r.
  split; [reflexivity|]. split; [exact Hk|].
  destruct (lnot_cases r) as [[_ ?]|[Hone _]]; [assumption|].
  rewrite Hone in Hr. discriminate.
Qed.

(** In a call with [new_password = false] the error codes name their cause:
    MOSQ_ERR_INVAL exactly when the stored iteration count is below 1,
    MOSQ_ERR_UNKNOWN exactly when the count is valid and sha512 cannot be
    resolved; with either code the caller's output buffer is untouched. The
    remaining return values are 0 and 1, from the key derivation. *)
Theorem pw_hash_verify_error_codes (client : dynsec__client)
    (passwd : string) (buf : list byte) (len : Z) (g : rng) :
  let '(rc, _, out, _) :=
    dynsec_auth__pw_hash client passwd buf len false g in
  (rc = MOSQ_ERR_INVAL <-> iterations (pw client) < 1) /\
  (rc = MOSQ_ERR_UNKNOWN <->
   1 <= iterations (pw client) /\ EVP_get_digestbyname "sha512" = None) /\
  (rc = MOSQ_ERR_INVAL \/ rc = MOSQ_ERR_UNKNOWN -> out = buf) /\
  (rc = 0 \/ rc = 1 \/ rc = MOSQ_ERR_INVAL \/ rc = MOSQ_ERR_UNKNOWN).
Proof.
  cbn [dynsec_auth__pw_hash]. unfold pw_hash_derive.
  destruct (decide (iterations (pw client) < 1)) as [Hlt|Hge];
    [unfold MOSQ_ERR_INVAL, MOSQ_ERR_UNKNOWN; error_code_cases|].
  destruct (EVP_get_digestbyname "sha512") as [digest|].
  - destruct (PKCS5_PBKDF2_HMAC _ _ _ _ _ _ _ _) as [r o].
    unfold MOSQ_ERR_INVAL, MOSQ_ERR_UNKNOWN.
    destruct (lnot_cases r) as [[-> _]|[-> _]]; error_code_cases.
  - unfold MOSQ_ERR_INVAL, MOSQ_ERR_UNKNOWN. error_code_cases.
Qed.


(** A hash produced by a successful call with [new_password = true] is
    reproduced by a call with [new_password = false] on the record the first
    call left, for the same password, length and output buffer, whatever the
    state of the random source. *)
Theorem pw_hash_set_then_verify (client : dynsec__client) (passwd : string)
    (buf : list byte) (len : Z) (g : rng) client1 h g1 :
  dynsec_auth__pw_hash client passwd buf len true g
    = (MOSQ_ERR_SUCCESS, client1, h, g1) ->
  forall g2,
    dynsec_auth__pw_hash client1 passwd buf len false g2
    = (MOSQ_ERR_SUCCESS, client1, h, g2).
Proof.
  cbn [dynsec_auth__pw_hash].
  destruct (RAND_bytes _ _ _) as [[r salt'] g'].
  destruct (decide (r <> 1)); [discriminate|].
  intros Hnew g2.
  apply pw_hash_derive_success in Hnew
    as (Hdef & -> & -> & digest & k & Hdigest & Hk & Hk0).
  cbn [set_iterations set_salt pw salt iterations] in *.
  unfold pw_hash_derive. cbn [set_iterations set_salt pw salt iterations].
  rewrite decide_False by lia. rewrite Hdigest.
  cbn [set_iterations set_salt pw salt iterations password_hash valid
       clientid disabled].
  rewrite Hk.
  destruct (lnot_cases k) as [[-> _]|[_ ?]]; [reflexivity | contradiction].
Qed.

End HasherOutcomes.

(** ** The comparator: argument order *)

Section ComparatorSymmetry.
Context `{Platform}.

Lemma memcmp_const_loop_comm (a b : list byte) (k i : nat) (rc : Z) :
  memcmp_const_loop a b i k rc = memcmp_const_loop b a i k rc.
Proof.
  revert i rc. induction k as [|k IH]; intros i rc; [reflexivity|].
  cbn [memcmp_const_loop].
  destruct (a !! i) as [x|], (b !! i) as [y|]; cbn [mbind option_bind];
    try reflexivity.
  rewrite (Z.lxor_comm (char_of_byte x)). apply IH.
Qed.

(** The comparator gives the same answer whichever buffer comes first. *)
Theorem memcmp_const_comm (a b : option (list byte)) (len : nat) :
  memcmp_const a b len = memcmp_const b a len.
Proof.
  destruct a as [a|], b as [b|]; try reflexivity.
  apply memcmp_const_loop_comm.
Qed.

(** The loop only returns when both buffers hold the bytes it reads. *)
Lemma memcmp_const_loop_bounds (a b : list byte) (k i : nat) (rc r : Z) :
  memcmp_const_loop a b i k rc = Some r ->
  k = O \/ ((i + k <= length a)%nat /\ (i + k <= length b)%nat).
Proof.
  revert i rc. induction k as [|k IH]; intros i rc Hr; [auto|]. right.
  cbn [memcmp_const_loop] in Hr.
  destruct (a !! i) as [x|] eqn:Hx; [|discriminate].
  destruct (b !! i) as [y|] eqn:Hy; [|discriminate].
  cbn [mbind option_bind] in Hr.
  apply lookup_lt_Some in Hx. apply lookup_lt_Some in Hy.
  destruct (IH _ _ Hr) as [->|[? ?]]; lia.
Qed.

Lemma memcmp_const_zero_inv (a b : list byte) (n : nat) :
  memcmp_const (Some a) (Some b) n = Some 0 -> take n a = take n b.
Proof.
  intros Hz.
  assert (Hb : (n <= length a)%nat /\ (n <= length b)%nat).
  { destruct (memcmp_const_loop_bounds a b n 0 0 0 Hz) as [->|?]; lia. }
  destruct (memcmp_const_zero_iff a b n) as (r & Hr & Hiff); [lia | lia |].
  rewrite Hr in Hz. injection Hz as ->. apply Hiff. reflexivity.
Qed.

End ComparatorSymmetry.

(** ** The decision engine: every path of the callback *)

Section EngineOutcomes.
Context `{Platform} `{CryptoProvider} `{PluginConfig} `{LuaRuntime}.

Implicit Types (st : plugin_state) (ed : mosquitto_evt_basic_auth)
  (client : dynsec__client) (userdata : option lua_State).

Lemma identity_test_false_inv client ed :
  match clientid client with
  | Some bound =>
      match mosquitto_client_id (ed_client ed) with
      | None => true
      | Some cid => bool_decide (bound <> cid)
      end
  | None => false
  end = false ->
  identity_bound client ed.
Proof.
  unfold identity_bound. destruct (clientid client) as [bound|]; [|done].
  destruct (mosquitto_client_id (ed_client ed)) as [cid|]; [|discriminate].
  intros Hne%bool_decide_eq_false. f_equal.
  destruct (decide (bound = cid)); [congruence | contradiction].
Qed.

(** The hook block: it ends in one of three ways, only ever appends to the
    log, and does nothing at all when no hook is compiled in or installed. *)
Lemma notify_connected_cases ed userdata st :
  let r := notify_connected ed userdata st in
  clients r.1.2 = clients st /\ rand r.1.2 = rand st /\
  log st `prefix_of` log r.1.2 /\
  (ended r = Return MOSQ_ERR_SUCCESS \/ ended r = Return MOSQ_ERR_UNKNOWN \/
   ended r = Fault unprotected_lua_error) /\
  (WITH_LUA = false \/ userdata = None ->
   r = (Return MOSQ_ERR_SUCCESS, st, userdata)).
Proof.
  unfold notify_connected, ended.
  destruct WITH_LUA.
  2:{ cbn [fst snd]. repeat split; auto. }
  destruct userdata as [L|].
  2:{ cbn [fst snd]. repeat split; auto. }
  assert (Hno : true = false \/ Some L = None -> False)
    by (intros [?|?]; discriminate).
  destruct (lua_pcall L (hook_arg ed)) as [[status top] L'].
  destruct (decide (status <> 0)).
  { cbn [fst snd mosquitto_log_printf clients rand log].
    repeat split; auto; [|intros Hc; destruct (Hno Hc)].
    rewrite <- app_assoc. apply prefix_app_r. reflexivity. }
  destruct (lua_isboolean top).
  - destruct (luaL_checkinteger top) as [ret_val|];
      cbn [fst snd mosquitto_log_printf clients rand log];
      (repeat split; auto; [|intros Hc; destruct (Hno Hc)]).
    + rewrite <- app_assoc. apply prefix_app_r. reflexivity.
    + apply prefix_app_r. reflexivity.
  - cbn [fst snd mosquitto_log_printf clients rand log].
    repeat split; auto; [|intros Hc; destruct (Hno Hc)].
    rewrite <- app_assoc. apply prefix_app_r. reflexivity.
Qed.

(** Every call of the callback takes one of four exits: the two plain
    returns, the fault of the comparator, or the hook block, which is only
    reached for a live record whose stored hash equals the recomputed one. *)
Lemma callback_cases ed userdata st :
  let r := dynsec_auth__basic_auth_callback ed userdata st in
  r = (Return MOSQ_ERR_AUTH, st, userdata) \/
  r = (Return MOSQ_ERR_PLUGIN_DEFER, st, userdata) \/
  r = (Fault out_of_bounds_read, st, userdata) \/
  exists uname passwd client h,
    finds st ed uname passwd client /\ disabled client = false /\
    identity_bound client ed /\ valid (pw client) = true /\
    recomputed_hash client passwd (rand st) = Some h /\
    memcmp_const (Some (password_hash (pw client))) (Some h)
      password_hash_size = Some 0 /\
    r = notify_connected ed userdata st.
Proof.
  unfold dynsec_auth__basic_auth_callback.
  destruct (username ed) as [uname|] eqn:Hu; [|auto].
  destruct (password ed) as [passwd|] eqn:Hp; [|auto].
  destruct (dynsec_clients__find st uname) as [client|] eqn:Hfind; [|auto].
  destruct (disabled client) eqn:Hdis; [auto|].
  match goal with
  | |- context [if ?test then _ else _] => destruct test eqn:Hid; [auto|]
  end.
  apply identity_test_false_inv in Hid.
  destruct (valid (pw client)) eqn:Hvalid; [|auto].
  fold (verify_hash client passwd (rand st)).
  pose proof (verify_hash_frame client passwd (rand st)) as [Hc Hg].
  assert (Hrec : recomputed_hash client passwd (rand st)
                 = let '(rc, _, h, _) := verify_hash client passwd (rand st) in
                   if decide (rc = MOSQ_ERR_SUCCESS) then Some h else None)
    by reflexivity.
  destruct (verify_hash client passwd (rand st)) as [[[rc client'] h] g].
  cbn [fst snd] in Hc, Hg. subst client' g.
  rewrite (store_client_same st uname client Hfind).
  destruct (decide (rc = MOSQ_ERR_SUCCESS)); [|auto].
  destruct (memcmp_const _ _ _) as [c|] eqn:Hcmp; [|auto].
  destruct (decide (c = 0)) as [->|]; [|auto].
  right. right. right. exists uname, passwd, client, h.
  repeat split; assumption.
Qed.

(** A wrong password is rejected: for a live record, when the derivation
    succeeds with a hash that differs from the stored one within the 64
    bytes compared, the callback returns MOSQ_ERR_AUTH (REJECT) and leaves
    the state and the interpreter as they were. *)
Theorem wrong_password_rejects st ed userdata uname passwd client h :
  finds st ed uname passwd client ->
  disabled client = false ->
  identity_bound client ed ->
  valid (pw client) = true ->
  recomputed_hash client passwd (rand st) = Some h ->
  (password_hash_size <= length (password_hash (pw client)))%nat ->
  (password_hash_size <= length h)%nat ->
  take password_hash_size h
    <> take password_hash_size (password_hash (pw client)) ->
  dynsec_auth__basic_auth_callback ed userdata st
  = (Return MOSQ_ERR_AUTH, st, userdata).
Proof.
  intros Hfinds Hdis Hid Hvalid Hrec Hls Hlh Hne.
  rewrite (callback_live st ed userdata uname passwd client) by assumption.
  unfold recomputed_hash in Hrec.
  destruct (verify_hash client passwd (rand st)) as [[[rc client'] h'] g].
  destruct (decide (rc = MOSQ_ERR_SUCCESS)); [|discriminate].
  injection Hrec as ->.
  destruct (memcmp_const_zero_iff (password_hash (pw client)) h
              password_hash_size Hls Hlh) as (r & -> & Hiff).
  destruct (decide (r = 0)) as [Hr|]; [|reflexivity].
  exfalso. apply Hne. symmetry. apply Hiff, Hr.
Qed.

(** The callback never accepts without a matching hash: an ACCEPT means that
    username and password were present, the record was found, is not
    disabled, has its identity binding satisfied and password material
    present, and that the derivation succeeded with a hash equal to the
    stored one on the 64 bytes compared. *)
Theorem accept_only_on_matching_hash st ed userdata :
  decision (dynsec_auth__basic_auth_callback ed userdata st) = Some ACCEPT ->
  exists uname passwd client h,
    finds st ed uname passwd client /\ disabled client = false /\
    identity_bound client ed /\ valid (pw client) = true /\
    recomputed_hash client passwd (rand st) = Some h /\
    take password_hash_size h
      = take password_hash_size (password_hash (pw client)).
Proof.
  intros Hacc.
  destruct (callback_cases ed userdata st)
    as [Hr|[Hr|[Hr|(uname & passwd & client & h & Hf & Hd & Hi & Hv & Hh
                    & Hcmp & _)]]];
    try (rewrite Hr in Hacc; discriminate).
  exists uname, passwd, client, h. repeat split; try assumption; try apply Hf.
  symmetry. apply (memcmp_const_zero_inv _ _ _ Hcmp).
Qed.

(** The callback is read-only on the credential directory and the random
    source, and only ever appends to the log; when the answer is REJECT or
    DEFER the whole state and the interpreter behind [userdata] are
    untouched, so the hook has not run. *)
Theorem callback_frame st ed userdata :
  let r := dynsec_auth__basic_auth_callback ed userdata st in
  clients r.1.2 = clients st /\ rand r.1.2 = rand st /\
  log st `prefix_of` log r.1.2 /\
  (decision r = Some REJECT \/ decision r = Some DEFER ->
   r.1.2 = st /\ r.2 = userdata).
Proof.
  intros r. subst r.
  destruct (callback_cases ed userdata st)
    as [Hr|[Hr|[Hr|(_ & _ & _ & _ & _ & _ & _ & _ & _ & _ & Hr)]]];
    rewrite Hr; try (cbn [fst snd]; repeat split; reflexivity).
  destruct (notify_connected_cases ed userdata st)
    as (Hc & Hg & Hl & Hend & _).
  split; [exact Hc|]. split; [exact Hg|]. split; [exact Hl|].
  intros Hdec. exfalso. unfold decision in Hdec.
  destruct Hend as [He|[He|He]]; rewrite He in Hdec;
    destruct Hdec as [Hdec|Hdec]; discriminate.
Qed.

(** The callback returns one of four codes. Without a hook (not compiled
    in, or no interpreter installed) it never returns MOSQ_ERR_UNKNOWN and
    never runs into a Lua error, and it hands back the state and the
    interpreter exactly as it received them. *)
Theorem callback_return_codes st ed userdata :
  let r := dynsec_auth__basic_auth_callback ed userdata st in
  (forall rc, ended r = Return rc ->
     rc = MOSQ_ERR_SUCCESS \/ rc = MOSQ_ERR_AUTH \/
     rc = MOSQ_ERR_PLUGIN_DEFER \/ rc = MOSQ_ERR_UNKNOWN) /\
  (WITH_LUA = false \/ userdata = None ->
   ended r <> Return MOSQ_ERR_UNKNOWN /\
   ended r <> Fault unprotected_lua_error /\
   r.1.2 = st /\ r.2 = userdata).
Proof.
  intros r. subst r.
  destruct (callback_cases ed userdata st)
    as [Hr|[Hr|[Hr|(_ & _ & _ & _ & _ & _ & _ & _ & _ & _ & Hr)]]];
    rewrite Hr; try (unfold ended; cbn [fst snd]; split;
                     [intros rc [= <-]; auto | intros _; repeat split;
                                               discriminate]).
  destruct (notify_connected_cases ed userdata st)
    as (_ & _ & _ & Hend & Hnone).
  split.
  - intros rc Hrc.
    destruct Hend as [He|[He|He]]; rewrite He in Hrc;
      [injection Hrc as <-|injection Hrc as <-|discriminate]; auto.
  - intros Hno. rewrite (Hnone Hno). unfold ended. cbn [fst snd].
    repeat split; discriminate.
Qed.

(** A record without a clientid is bound to no client: without a hook, two
    attempts with the same username and password get the same result
    whatever the connecting client is. *)
Theorem unbound_record_ignores_client st ed1 ed2 userdata :
  username ed1 = username ed2 ->
  password ed1 = password ed2 ->
  (forall uname client,
     username ed1 = Some uname ->
     dynsec_clients__find st uname = Some client ->
     clientid client = None) ->
  WITH_LUA = false \/ userdata = None ->
  dynsec_auth__basic_auth_callback ed1 userdata st
  = dynsec_auth__basic_auth_callback ed2 userdata st.
Proof.
  intros Hu Hp Hunbound Hno.
  unfold dynsec_auth__basic_auth_callback. rewrite <- Hu, <- Hp.
  destruct (username ed1) as [uname|]; [|reflexivity].
  destruct (password ed1) as [passwd|]; [|reflexivity].
  destruct (dynsec_clients__find st uname) as [client|] eqn:Hfind;
    [|reflexivity].
  rewrite (Hunbound uname client eq_refl Hfind).
  destruct (disabled client); [reflexivity|].
  destruct (valid (pw client)); [|reflexivity].
  destruct (dynsec_auth__pw_hash _ _ _ _ _ _) as [[[rc client'] h] g].
  destruct (decide (rc = MOSQ_ERR_SUCCESS)); [|reflexivity].
  destruct (memcmp_const _ _ _) as [c|]; [|reflexivity].
  destruct (decide (c = 0)); [|reflexivity].
  pose proof (notify_connected_cases ed1 userdata
                (store_client uname client' g st)) as (_ & _ & _ & _ & Hn1).
  pose proof (notify_connected_cases ed2 userdata
                (store_client uname client' g st)) as (_ & _ & _ & _ & Hn2).
  rewrite (Hn1 Hno), (Hn2 Hno). reflexivity.
Qed.


End EngineOutcomes.

Section EngineEdges.
Context `{Platform} `{CryptoProvider} `{PluginConfig} `{LuaRuntime}.

Implicit Types (st : plugin_state) (ed : mosquitto_evt_basic_auth)
  (client : dynsec__client) (userdata : option lua_State).

(** A hook that raises an error turns a successful verification into
    MOSQ_ERR_UNKNOWN (ERROR): with the hook compiled in and installed, a
    non-zero status of [lua_pcall] after the hash matched makes the callback
    return MOSQ_ERR_UNKNOWN, having logged the connection and then the error
    message; the directory is untouched. *)
Theorem hook_failure_returns_unknown st ed (L : lua_State) uname passwd
    client :
  finds st ed uname passwd client ->
  disabled client = false ->
  identity_bound client ed ->
  password_correct client passwd (rand st) ->
  WITH_LUA = true ->
  (lua_pcall L (hook_arg ed)).1.1 <> 0 ->
  let r := dynsec_auth__basic_auth_callback ed (Some L) st in
  ended r = Return MOSQ_ERR_UNKNOWN /\ decision r = Some ERROR /\
  clients r.1.2 = clients st /\
  log r.1.2 =
    log st ++
    [(MOSQ_LOG_INFO,
      client_connected (mosquitto_client_id (ed_client ed))
        (mosquitto_client_address (ed_client ed)));
     (MOSQ_LOG_ERR,
      lua_pcall_failed (lua_tostring (lua_pcall L (hook_arg ed)).1.2))].
Proof.
  intros Hfinds Hdis Hid Hpw Hlua Hstatus r. subst r.
  rewrite (callback_live st ed (Some L) uname passwd client)
    by (try assumption; apply Hpw).
  destruct (password_correct_compare _ _ _ Hpw) as (h & -> & ->).
  rewrite decide_True by reflexivity. rewrite decide_True by reflexivity.
  unfold notify_connected. rewrite Hlua.
  destruct (lua_pcall L (hook_arg ed)) as [[status top] L'].
  cbn [fst snd] in Hstatus. rewrite decide_True by exact Hstatus.
  unfold decision, ended.
  cbn [fst snd mosquitto_log_printf clients rand log].
  rewrite <- app_assoc. repeat split.
Qed.

(** A stored iteration count below 1 is not an error for the callback: for
    a live record with such a count the hasher refuses with MOSQ_ERR_INVAL
    and the callback returns MOSQ_ERR_PLUGIN_DEFER (DEFER), whatever the
    password, with the state as it was. *)
Theorem invalid_iterations_defers st ed userdata uname passwd client :
  finds st ed uname passwd client ->
  disabled client = false ->
  identity_bound client ed ->
  valid (pw client) = true ->
  iterations (pw client) < 1 ->
  dynsec_auth__basic_auth_callback ed userdata st
  = (Return MOSQ_ERR_PLUGIN_DEFER, st, userdata).
Proof.
  intros Hfinds Hdis Hid Hvalid Hiter.
  rewrite (callback_live st ed userdata uname passwd client) by assumption.
  unfold verify_hash. cbn [dynsec_auth__pw_hash]. unfold pw_hash_derive.
  rewrite decide_True by exact Hiter. reflexivity.
Qed.

End EngineEdges.

(** ** The encoder over the standard transform *)

(** A successful encoding of [n] bytes leaves a text of [4 * ceil(n / 3)]
    characters, whose terminator is its last byte and its only NUL. *)
Theorem encode_text_length (env : bio_env) (b : list byte)
    (st : encode_state) :
  (dynsec_auth__base64_encode env b (Z.of_nat (length b)) st).1 = 0 ->
  let r := dynsec_auth__base64_encode env b (Z.of_nat (length b)) st in
  exists text,
    encoded_text r.2 = Some text /\
    Z.of_nat (strlen text) = 4 * ((Z.of_nat (length b) + 2) / 3) /\
    length text = S (strlen text) /\ last text = Some NUL.
Proof.
  unfold dynsec_auth__base64_encode, mosquitto_malloc.
  destruct (decide (Z.of_nat (length b) < 0)); [discriminate|].
  destruct (b64_new_ok env); [|discriminate].
  destruct (bmem_new_ok env); [|discriminate]. cbn [negb].
  destruct (decide (flush_rc env <> 1)); [discriminate|].
  destruct (alloc_ok env); [|discriminate].
  intros _. cbn [fst snd]. rewrite Nat2Z.id, firstn_all.
  cbn [bio_b64_write StandardBase64].
  exists (Base64.encode b ++ [NUL]). split.
  { unfold encoded_text. cbn [encoded enc_heap mbind option_bind].
    apply lookup_insert_eq. }
  rewrite strlen_terminated by apply Base64Facts.encode_no_NUL.
  split; [apply Base64Facts.encode_length|].
  split; [rewrite length_app; simpl; lia | apply last_snoc].
Qed.

(** Different buffers never get the same text: when two encodings succeed
    and leave equal texts, the buffers were equal. *)
Theorem encode_injective (env1 env2 : bio_env) (b1 b2 : list byte)
    (st1 st2 : encode_state) :
  (dynsec_auth__base64_encode env1 b1 (Z.of_nat (length b1)) st1).1 = 0 ->
  (dynsec_auth__base64_encode env2 b2 (Z.of_nat (length b2)) st2).1 = 0 ->
  encoded_text (dynsec_auth__base64_encode env1 b1 (Z.of_nat (length b1)) st1).2
  = encoded_text (dynsec_auth__base64_encode env2 b2 (Z.of_nat (length b2)) st2).2 ->
  b1 = b2.
Proof.
  unfold dynsec_auth__base64_encode, mosquitto_malloc.
  destruct (decide (Z.of_nat (length b1) < 0)); [discriminate|].
  destruct (decide (Z.of_nat (length b2) < 0)); [discriminate|].
  destruct (b64_new_ok env1); [|discriminate].
  destruct (b64_new_ok env2); [|intros _; discriminate].
  destruct (bmem_new_ok env1); [|discriminate].
  destruct (bmem_new_ok env2); [|intros _; discriminate]. cbn [negb].
  destruct (decide (flush_rc env1 <> 1)); [discriminate|].
  destruct (decide (flush_rc env2 <> 1)); [intros _; discriminate|].
  destruct (alloc_ok env1); [|discriminate].
  destruct (alloc_ok env2); [|intros _; discriminate].
  intros _ _. unfold encoded_text.
  cbn [fst snd encoded enc_heap mbind option_bind].
  rewrite !lookup_insert_eq, !Nat2Z.id, !firstn_all.
  cbn [bio_b64_write StandardBase64].
  intros [= Heq]. apply app_inj_tail in Heq as [Heq _].
  pose proof (Base64Facts.decode_encode b1) as H1.
  rewrite Heq, Base64Facts.decode_encode in H1. congruence.
Qed.

(** ** The further properties at concrete inputs *)

Module MoreWitnesses.
Import TestDoubles.

Lemma encode_outcome_witness :
  let env := {| b64_new_ok := true; bmem_new_ok := true; flush_rc := 1;
                alloc_ok := false |} in
  let st := {| enc_heap := {[ 3%positive := [x41] ]};
               encoded := Some 3%positive |} in
  let r := dynsec_auth__base64_encode env [x68; x69] 2 st in
  r.1 = 1 /\ enc_heap r.2 = enc_heap st /\
  (encoded r.2 = encoded st \/ encoded r.2 = None).
Proof.
  intros env st r.
  destruct (@encode_outcome StandardBase64 env [x68; x69] 2 st)
    as (_ & _ & Hfail).
  split; [reflexivity|]. apply Hfail. reflexivity.
Defined.

Lemma encode_success_block_witness :
  let in_ := [x68; x69; x21] in
  let st := {| enc_heap := {[ 1%positive := [x41] ]}; encoded := None |} in
  let r := dynsec_auth__base64_encode resources_ok in_ 2 st in
  exists a,
    encoded r.2 = Some a /\ enc_heap st !! a = None /\
    enc_heap r.2 !! a = Some (Base64.encode [x68; x69] ++ [NUL]) /\
    forall p, p <> a -> enc_heap r.2 !! p = enc_heap st !! p.
Proof.
  intros in_ st.
  apply (@encode_success_block StandardBase64 resources_ok in_ 2 st).
  - simpl. lia.
  - reflexivity.
Defined.

Lemma decode_outcome_witness :
  let in_ := String.list_byte_of_string "aGk=" ++ [NUL] in
  let st := {| dec_heap := {[ 1%positive := [x41] ]}; decoded := None;
               decoded_len := 0 |} in
  let r := dynsec_auth__base64_decode resources_ok in_ st in
  r.1 = 0 /\ 0 < decoded_len r.2 /\
  exists a blk,
    decoded r.2 = Some a /\ dec_heap st !! a = None /\
    dec_heap r.2 !! a = Some blk /\ length blk = strlen in_ /\
    forall p, p <> a -> dec_heap r.2 !! p = dec_heap st !! p.
Proof.
  intros in_ st r.
  destruct (@decode_outcome StandardBase64 resources_ok in_ st)
    as (_ & _ & Hok).
  assert (Hrc : r.1 = 0) by (vm_compute; reflexivity).
  split; [exact Hrc|]. apply Hok, Hrc.
Defined.

Lemma decode_stops_at_NUL_witness :
  let t := String.list_byte_of_string "aGk=" in
  let junk := String.list_byte_of_string "#not base64#" in
  let st := {| dec_heap := ∅; decoded := None; decoded_len := 0 |} in
  dynsec_auth__base64_decode resources_ok (t ++ NUL :: junk) st
  = dynsec_auth__base64_decode resources_ok (t ++ [NUL]) st.
Proof.
  intros t junk st.
  apply (@decode_stops_at_NUL StandardBase64 resources_ok t junk st).
  repeat constructor; discriminate.
Defined.

Lemma pw_hash_verify_error_codes_witness :
  let '(rc, _, out, _) :=
    @dynsec_auth__pw_hash toy_crypto with_lua erin "x" (replicate 64 x11) 64
      false 0%nat in
  rc = MOSQ_ERR_INVAL /\ out = replicate 64 x11.
Proof.
  pose proof (@pw_hash_verify_error_codes toy_crypto with_lua erin "x"
                (replicate 64 x11) 64 0%nat) as Hthm.
  destruct (@dynsec_auth__pw_hash toy_crypto with_lua erin "x"
              (replicate 64 x11) 64 false 0%nat) as [[[rc c] out] g].
  destruct Hthm as (Hinval & _ & Hout & _).
  assert (Hrc : rc = MOSQ_ERR_INVAL)
    by (apply Hinval; vm_compute; reflexivity).
  split; [exact Hrc|]. apply Hout. left. exact Hrc.
Defined.


Lemma pw_hash_set_then_verify_witness :
  let client1 := set_iterations 101 (set_salt (replicate 16 x03) erin) in
  let h := toy_kdf "fresh" (replicate 16 x03) 101 64 in
  @dynsec_auth__pw_hash toy_crypto with_lua client1 "fresh" (replicate 64 x00)
    64 false 9%nat
  = (MOSQ_ERR_SUCCESS, client1, h, 9%nat).
Proof.
  intros client1 h.
  apply (@pw_hash_set_then_verify toy_crypto with_lua erin "fresh"
           (replicate 64 x00) 64 3%nat client1 h 4%nat).
  vm_compute. reflexivity.
Defined.

Lemma wrong_password_rejects_witness :
  let st := initial_state toy_crypto O in
  let ed := attempt (Some "alice"%string) (Some "wrong"%string)
              (Some "any"%string) in
  callback toy_crypto with_lua ed (Some (0, LNil)) st
  = (Return MOSQ_ERR_AUTH, st, Some (0, LNil)).
Proof.
  intros st ed.
  apply (@wrong_password_rejects x86 toy_crypto with_lua toy_lua st ed
           (Some (0, LNil)) "alice" "wrong" alice
           (toy_kdf "wrong" salt16 10000 64)).
  - repeat split.
  - reflexivity.
  - exact I.
  - reflexivity.
  - vm_compute. reflexivity.
  - vm_compute. lia.
  - vm_compute. lia.
  - vm_compute. discriminate.
Defined.

Lemma accept_only_on_matching_hash_witness :
  let st := initial_state toy_crypto O in
  let ed := attempt (Some "alice"%string) (Some "Secret123!"%string)
              (Some "any"%string) in
  exists uname passwd client h,
    @finds toy_crypto st ed uname passwd client /\ disabled client = false /\
    identity_bound client ed /\ valid (pw client) = true /\
    @recomputed_hash x86 toy_crypto with_lua client passwd (rand st)
      = Some h /\
    take password_hash_size h
      = take password_hash_size (password_hash (pw client)).
Proof.
  intros st ed.
  apply (@accept_only_on_matching_hash x86 toy_crypto with_lua toy_lua st ed
           None).
  vm_compute. reflexivity.
Defined.

Lemma callback_frame_witness :
  let st := initial_state toy_crypto O in
  let ed := attempt (Some "bob"%string) (Some "hunter2"%string)
              (Some "any"%string) in
  let r := callback toy_crypto with_lua ed (Some (1, LNil)) st in
  r.1.2 = st /\ r.2 = Some (1, LNil).
Proof.
  intros st ed r.
  destruct (@callback_frame x86 toy_crypto with_lua toy_lua st ed
              (Some (1, LNil))) as (_ & _ & _ & Hquiet).
  apply Hquiet. left. vm_compute. reflexivity.
Defined.

Lemma callback_return_codes_witness :
  let st := initial_state toy_crypto O in
  let ed := attempt (Some "alice"%string) (Some "Secret123!"%string)
              (Some "any"%string) in
  let r := callback toy_crypto without_lua ed (Some (1, LNil)) st in
  ended r <> Return MOSQ_ERR_UNKNOWN /\
  ended r <> Fault unprotected_lua_error /\
  r.1.2 = st /\ r.2 = Some (1, LNil).
Proof.
  intros st ed r.
  destruct (@callback_return_codes x86 toy_crypto without_lua toy_lua st ed
              (Some (1, LNil))) as (_ & Hnohook).
  apply Hnohook. left. reflexivity.
Defined.

Lemma unbound_record_ignores_client_witness :
  let st := initial_state toy_crypto O in
  let ed1 := attempt (Some "alice"%string) (Some "Secret123!"%string)
               (Some "dev-a"%string) in
  let ed2 := attempt (Some "alice"%string) (Some "Secret123!"%string)
               None in
  callback toy_crypto without_lua ed1 None st
  = callback toy_crypto without_lua ed2 None st.
Proof.
  intros st ed1 ed2.
  apply (@unbound_record_ignores_client x86 toy_crypto without_lua toy_lua
           st ed1 ed2 None).
  - reflexivity.
  - reflexivity.
  - intros uname client [= <-] Hfind.
    vm_compute in Hfind. injection Hfind as <-. reflexivity.
  - left. reflexivity.
Defined.


Lemma hook_failure_returns_unknown_witness :
  let st := initial_state toy_crypto O in
  let ed := attempt (Some "alice"%string) (Some "Secret123!"%string)
              (Some "any"%string) in
  let r := callback toy_crypto with_lua ed (Some (1, LString "boom")) st in
  ended r = Return MOSQ_ERR_UNKNOWN /\ decision r = Some ERROR /\
  clients r.1.2 = clients st /\
  log r.1.2 =
    [(MOSQ_LOG_INFO,
      client_connected (Some "any"%string) (Some "10.0.0.7"%string));
     (MOSQ_LOG_ERR, lua_pcall_failed (Some "boom"%string))].
Proof.
  intros st ed.
  apply (@hook_failure_returns_unknown x86 toy_crypto with_lua toy_lua st ed
           (1, LString "boom") "alice" "Secret123!" alice).
  - repeat split.
  - reflexivity.
  - exact I.
  - repeat split; vm_compute; reflexivity.
  - reflexivity.
  - vm_compute. discriminate.
Defined.

Lemma invalid_iterations_defers_witness :
  let st := @Build_plugin_state toy_crypto
              {[ "zed"%string := record_for "pw" 0 None false ]} O [] in
  let ed := attempt (Some "zed"%string) (Some "pw"%string)
              (Some "any"%string) in
  callback toy_crypto with_lua ed None st
  = (Return MOSQ_ERR_PLUGIN_DEFER, st, None).
Proof.
  intros st ed.
  apply (@invalid_iterations_defers x86 toy_crypto with_lua toy_lua st ed
           None "zed" "pw" (record_for "pw" 0 None false)).
  - repeat split.
  - reflexivity.
  - exact I.
  - reflexivity.
  - vm_compute. reflexivity.
Defined.

Lemma encode_text_length_witness :
  let st := {| enc_heap := ∅; encoded := None |} in
  let r := dynsec_auth__base64_encode resources_ok all_byte_values
             (Z.of_nat (length all_byte_values)) st in
  exists text,
    encoded_text r.2 = Some text /\
    Z.of_nat (strlen text) = 4 * ((Z.of_nat (length all_byte_values) + 2) / 3)
    /\ length text = S (strlen text) /\ last text = Some NUL.
Proof.
  intros st.
  apply (encode_text_length resources_ok all_byte_values st).
  reflexivity.
Defined.

Lemma encode_injective_witness :
  let env := {| b64_new_ok := true; bmem_new_ok := true; flush_rc := 1;
                alloc_ok := true |} in
  let st1 := {| enc_heap := ∅; encoded := None |} in
  let st2 := {| enc_heap := {[ 1%positive := [x41] ]};
                encoded := Some 1%positive |} in
  let b1 := [x68; x69] in
  let b2 := String.list_byte_of_string "hi" in
  b1 = b2.
Proof.
  intros env st1 st2 b1 b2.
  apply (encode_injective resources_ok env b1 b2 st1 st2).
  - reflexivity.
  - reflexivity.
  - vm_compute. reflexivity.
Defined.

End MoreWitnesses.
